(** * A shallow embedding of [AivisSpeechStyleAdder] (src/aivis_style_gui.py)

    The class loads a speech model (a plain JSON file or a ZIP-packaged
    [.aivis] archive holding [config.json]), merges a fixed catalog of six
    styles into its configuration and writes the model back.

    - JSON values are an inductive type; Python dicts are association lists
      in insertion order, with Python's [d[k] = v] replacing the first
      occurrence in place or appending a new key at the end.
    - Python floats are the kernel's binary64 floats, so the literal [1.2]
      of the source is the same double here.
    - Python exceptions are an [outcome]; code touching the file system is a
      state-and-exception monad whose state survives an exception, since
      Python does not roll back file writes. *)

From Stdlib Require Import String List Bool Ascii Floats ZArith DecimalString Lia.
Import ListNotations.
Open Scope string_scope.
Local Set Warnings "-inexact-float -register-all".

(** ** JSON values, as [json.load] returns them *)

Inductive json : Type :=
| JNull
| JBool (b : bool)
| JInt (z : Z)
| JFloat (f : float)
| JStr (s : string)
| JArr (l : list json)
| JObj (kv : list (string * json)).

(** ** Python exceptions *)

Inductive exn : Type :=
| ValueError (msg : string)
| FileNotFoundError (what : string)
| FileExistsError (p : string)
| IsADirectoryError (p : string)
| NotADirectoryError (p : string)
| BadZipFile
| JSONDecodeError
| KeyError (k : string)
| TypeError
| AttributeError.

Inductive outcome (A : Type) : Type :=
| Ok (a : A)
| Exc (e : exn).
Arguments Ok {A} a.
Arguments Exc {A} e.

Definition obind {A B} (m : outcome A) (k : A -> outcome B) : outcome B :=
  match m with Ok a => k a | Exc e => Exc e end.

Declare Scope outcome_scope.
Notation "x <- m ;; k" := (obind m (fun x => k))
  (at level 61, m at next level, right associativity) : outcome_scope.
Open Scope outcome_scope.

(** ** Python dict operations on association lists *)

Fixpoint lookup (k : string) (kv : list (string * json)) : option json :=
  match kv with
  | [] => None
  | (k', v) :: r => if String.eqb k k' then Some v else lookup k r
  end.

Definition has_key (k : string) (kv : list (string * json)) : bool :=
  match lookup k kv with Some _ => true | None => false end.

(** [d[k] = v]: replace in place, or append at the end. *)
Fixpoint set (k : string) (v : json) (kv : list (string * json))
  : list (string * json) :=
  match kv with
  | [] => [(k, v)]
  | (k', v') :: r => if String.eqb k k' then (k', v) :: r else (k', v') :: set k v r
  end.

(** [s1 in s2] on Python strings: substring test. *)
Fixpoint is_prefix (p s : string) : bool :=
  match p, s with
  | EmptyString, _ => true
  | String a p', String b s' => Ascii.eqb a b && is_prefix p' s'
  | String _ _, EmptyString => false
  end.

Fixpoint is_substring (p s : string) : bool :=
  is_prefix p s ||
  match s with EmptyString => false | String _ s' => is_substring p s' end.

(** [k in v] for a string [k]: key test on dicts, element test on lists
    (only an equal string is [==] to a string), substring test on strings,
    [TypeError] on numbers, booleans and [None]. *)
Definition py_contains (k : string) (v : json) : outcome bool :=
  match v with
  | JObj kv => Ok (has_key k kv)
  | JArr l => Ok (existsb (fun x => match x with JStr s => String.eqb s k | _ => false end) l)
  | JStr s => Ok (is_substring k s)
  | _ => Exc TypeError
  end.

(** [v[k]] for a string [k]. *)
Definition py_getitem (v : json) (k : string) : outcome json :=
  match v with
  | JObj kv => match lookup k kv with Some x => Ok x | None => Exc (KeyError k) end
  | _ => Exc TypeError
  end.

(** [v[k] = x] for a string [k]; only dicts accept it. *)
Definition py_setitem (v : json) (k : string) (x : json) : outcome json :=
  match v with
  | JObj kv => Ok (JObj (set k x kv))
  | _ => Exc TypeError
  end.

(** [for x in v]: list elements, dict keys, string characters. *)
Fixpoint chars (s : string) : list json :=
  match s with
  | EmptyString => []
  | String c s' => JStr (String c EmptyString) :: chars s'
  end.

Definition py_iter (v : json) : outcome (list json) :=
  match v with
  | JArr l => Ok l
  | JObj kv => Ok (map (fun p => JStr (fst p)) kv)
  | JStr s => Ok (chars s)
  | _ => Exc TypeError
  end.

(** ** The style catalog: [__init__] and [_get_style_parameters] *)

(** [self.styles], in insertion order. *)
Definition styles : list (string * string) :=
  [ ("normal", "ノーマル");
    ("standard", "通常");
    ("high_tension", "テンション高め");
    ("calm", "落ち着き");
    ("cheerful", "上機嫌");
    ("emotional", "怒り・悲しみ") ].

Definition param_record (speed pitch intonation volume emotion_strength : float) : json :=
  JObj [ ("speed", JFloat speed); ("pitch", JFloat pitch);
         ("intonation", JFloat intonation); ("volume", JFloat volume);
         ("emotion_strength", JFloat emotion_strength) ].

(** The local [style_params] dict of [_get_style_parameters]. *)
Definition style_params : list (string * json) :=
  [ ("normal", param_record 1.0 0.0 1.0 1.0 0.5);
    ("standard", param_record 1.0 0.0 1.0 1.0 0.5);
    ("high_tension", param_record 1.2 0.2 1.5 1.2 0.8);
    ("calm", param_record 0.9 (-0.1) 0.8 0.9 0.3);
    ("cheerful", param_record 1.1 0.1 1.3 1.1 0.7);
    ("emotional", param_record 0.95 (-0.2) 1.4 1.0 0.9) ].

(** [style_params.get(style_id, style_params["normal"])] *)
Definition _get_style_parameters (style_id : string) : json :=
  match lookup style_id style_params with
  | Some p => p
  | None => param_record 1.0 0.0 1.0 1.0 0.5
  end.

(** [list(self.styles.keys())] *)
Definition style_keys : json := JArr (map (fun p => JStr (fst p)) styles).

Definition style_entry (style_id style_name : string) : json :=
  JObj [ ("name", JStr style_name); ("parameters", _get_style_parameters style_id) ].

(** ** [add_styles_to_model] *)

(** [for style_id, style_name in self.styles.items():
        config["styles"][style_id] = {...}]; the inner dict is mutated in
    place, so it is written back under the same key of [config]. *)
Fixpoint insert_styles (config : json) (items : list (string * string)) : outcome json :=
  match items with
  | [] => Ok config
  | (style_id, style_name) :: r =>
      st <- py_getitem config "styles" ;;
      st' <- py_setitem st style_id (style_entry style_id style_name) ;;
      config' <- py_setitem config "styles" st' ;;
      insert_styles config' r
  end.

(** The body of [for speaker in config["speakers"]]: returns the speakers
    as they are after the loop. *)
Fixpoint update_speakers (sps : list json) : outcome (list json) :=
  match sps with
  | [] => Ok []
  | sp :: r =>
      b <- py_contains "styles" sp ;;
      sp' <- (if b then Ok sp else py_setitem sp "styles" style_keys) ;;
      r' <- update_speakers r ;;
      Ok (sp' :: r')
  end.

(** Lines 70-73: [if "speakers" in config: for speaker in config["speakers"]: ...].
    Iterating a dict or a string yields fresh strings, so only a list is
    changed in place. *)
Definition add_speaker_styles (config : json) : outcome json :=
  c <- py_contains "speakers" config ;;
  if c then
    sp <- py_getitem config "speakers" ;;
    l <- py_iter sp ;;
    l' <- update_speakers l ;;
    match sp with
    | JArr _ => py_setitem config "speakers" (JArr l')
    | _ => Ok config
    end
  else Ok config.

(** Lines 61-73, on the configuration object [config]. *)
Definition merge_config (config : json) : outcome json :=
  b <- py_contains "styles" config ;;
  config1 <- (if b then Ok config else py_setitem config "styles" (JObj [])) ;;
  config2 <- insert_styles config1 styles ;;
  add_speaker_styles config2.

(** [model_data.get("type") == "aivis"]; [.get] exists only on dicts. *)
Definition is_aivis (model_data : json) : outcome bool :=
  match model_data with
  | JObj kv =>
      Ok (match lookup "type" kv with Some (JStr s) => String.eqb s "aivis" | _ => false end)
  | _ => Exc AttributeError
  end.

(** The configuration that [add_styles_to_model] works on. *)
Definition select_config (model_data : json) : outcome json :=
  a <- is_aivis model_data ;;
  if a then py_getitem model_data "config" else Ok model_data.

(** [add_styles_to_model]: [config] aliases [model_data["config"]] in the
    packaged case, so the merged configuration is found there afterwards. *)
Definition add_styles_to_model (model_data : json) : outcome json :=
  a <- is_aivis model_data ;;
  if a then
    config <- py_getitem model_data "config" ;;
    config' <- merge_config config ;;
    py_setitem model_data "config" config'
  else merge_config model_data.

(** ** The file system

    Paths are strings with [/] as the separator; a relative path is relative
    to the working directory. The state names each file by one path, spelled
    as pathlib spells it: no empty and no "." parts (".." parts are kept, as
    pathlib keeps them). Two spellings that reach one file by different
    routes (an absolute path into the working directory, a ".." part, a
    link) are not identified. The working directory and the root [/] always
    exist and have no entry of their own. A file holds either the text of a
    JSON value (written by [json.dump], read back by [json.load] as the same
    value), a ZIP archive (its member names and contents) or other bytes. *)

Definition path := string.

Inductive content : Type :=
| CJson (j : json)
| CZip (members : list (string * content))
| CRaw (bytes : string).

Inductive node : Type :=
| NDir
| NFile (c : content).

Definition fs := list (path * node).

Fixpoint fs_lookup (p : path) (s : fs) : option node :=
  match s with
  | [] => None
  | (q, n) :: r => if String.eqb p q then Some n else fs_lookup p r
  end.

Fixpoint fs_put (p : path) (n : node) (s : fs) : fs :=
  match s with
  | [] => [(p, n)]
  | (q, m) :: r => if String.eqb p q then (q, n) :: r else (q, m) :: fs_put p n r
  end.

(** [s.split("/")] *)
Fixpoint split_sep_from (cur : string) (s : string) : list string :=
  match s with
  | EmptyString => [cur]
  | String c r =>
      if Ascii.eqb c "/"%char then cur :: split_sep_from EmptyString r
      else split_sep_from (cur ++ String c EmptyString) r
  end.

Definition split_sep (s : string) : list string := split_sep_from EmptyString s.

(** [Path(p)]: its empty and "." parts dropped, ["."] when no part is
    left. Leading slashes make it absolute (pathlib keeps two of them as
    written, and POSIX resolves them to the root, like one). *)
Definition norm_path (p : string) : path :=
  let parts := filter (fun x => negb (String.eqb x "" || String.eqb x ".")) (split_sep p) in
  if is_prefix "/" p then "/" ++ String.concat "/" parts
  else match parts with [] => "." | _ => String.concat "/" parts end.

(** What a path below the directory [p] (as [norm_path] gives it) starts
    with. *)
Definition dir_prefix (p : path) : string :=
  if String.eqb p "." then "" else if String.eqb p "/" then "/" else p ++ "/".

(** [q] lies below the directory [p]: for ["."] every relative path. *)
Definition below (p q : path) : bool :=
  if String.eqb p "." then negb (is_prefix "/" q) else is_prefix (dir_prefix p) q.

Definition at_or_below (p q : path) : bool := String.eqb q p || below p q.

(** [Path(a) / b] for a relative name [b]. *)
Definition path_join (a b : path) : path := dir_prefix a ++ b.

(** The part of [p] before its last [/], if any. *)
Fixpoint last_slash (p : path) : option path :=
  match p with
  | EmptyString => None
  | String c r =>
      match last_slash r with
      | Some d => Some (String c d)
      | None => if Ascii.eqb c "/"%char then Some EmptyString else None
      end
  end.

(** [os.path.dirname(p)]; [""] is the working directory. *)
Definition parent (p : path) : path :=
  match last_slash p with Some d => d | None => "" end.

(** The proper ancestors of [p], outermost first: ["a"; "a/b"] for ["a/b/c"]. *)
Fixpoint ancestors_from (acc : path) (p : path) : list path :=
  match p with
  | EmptyString => []
  | String c r =>
      if Ascii.eqb c "/"%char then acc :: ancestors_from (acc ++ String c EmptyString) r
      else ancestors_from (acc ++ String c EmptyString) r
  end.

Definition ancestors (p : path) : list path := ancestors_from "" p.

Definition ends_with (suffix s : string) : bool :=
  let n := String.length s in
  let m := String.length suffix in
  Nat.leb m n && String.eqb (String.substring (n - m) m s) suffix.

Fixpoint drop_prefix (n : nat) (s : string) : string :=
  match n, s with
  | O, _ => s
  | S n', String _ r => drop_prefix n' r
  | S _, EmptyString => EmptyString
  end.

(** ** The state-and-exception monad of file-system code *)

Definition FS (A : Type) : Type := fs -> outcome A * fs.

Definition ret {A} (a : A) : FS A := fun s => (Ok a, s).
Definition throw {A} (e : exn) : FS A := fun s => (Exc e, s).
Definition lift {A} (o : outcome A) : FS A := fun s => (o, s).

Definition fbind {A B} (m : FS A) (k : A -> FS B) : FS B :=
  fun s => match m s with
           | (Ok a, s') => k a s'
           | (Exc e, s') => (Exc e, s')
           end.

(** [try: m except Exception as e: h(e)]; effects of [m] stay. *)
Definition try_except {A} (m : FS A) (h : exn -> FS A) : FS A :=
  fun s => match m s with
           | (Ok a, s') => (Ok a, s')
           | (Exc e, s') => h e s'
           end.

Declare Scope fs_scope.
Notation "x <~ m ;; k" := (fbind m (fun x => k))
  (at level 61, m at next level, right associativity) : fs_scope.
Open Scope fs_scope.

(** ** File-system primitives, as the Python library behaves *)

(** The parent of [p] must be an existing directory. *)
Definition check_parent (p : path) : FS unit :=
  fun s =>
    let d := parent p in
    if String.eqb d "" then (Ok tt, s)
    else match fs_lookup d s with
         | Some NDir => (Ok tt, s)
         | Some (NFile _) => (Exc (NotADirectoryError p), s)
         | None => (Exc (FileNotFoundError p), s)
         end.

(** [open(p, 'w')] followed by writing [c] and closing. *)
Definition write_file (p : path) (c : content) : FS unit :=
  _ <~ check_parent p ;;
  fun s => match fs_lookup p s with
           | Some NDir => (Exc (IsADirectoryError p), s)
           | _ => (Ok tt, fs_put p (NFile c) s)
           end.

(** [open(p, 'r')] and reading it whole. *)
Definition read_file (p : path) : FS content :=
  fun s => match fs_lookup p s with
           | Some (NFile c) => (Ok c, s)
           | Some NDir => (Exc (IsADirectoryError p), s)
           | None => (Exc (FileNotFoundError p), s)
           end.

(** [json.load] on the text of a file. *)
Definition json_decode (c : content) : outcome json :=
  match c with CJson j => Ok j | _ => Exc JSONDecodeError end.

(** [Path(p).exists()] *)
Definition path_exists (p : path) : FS bool :=
  fun s => (Ok match fs_lookup p s with Some _ => true | None => false end, s).

(** [os.path.isdir(p)] *)
Definition is_dir (p : path) (s : fs) : bool :=
  String.eqb p "." || String.eqb p "/" ||
  match fs_lookup p s with Some NDir => true | _ => false end.

(** [Path(p).mkdir(exist_ok=True)] *)
Definition mkdir_exist_ok (p : path) : FS unit :=
  fun s => match fs_lookup p s with
           | Some NDir => (Ok tt, s)
           | Some (NFile _) => (Exc (FileExistsError p), s)
           | None => (_ <~ check_parent p ;; fun s' => (Ok tt, fs_put p NDir s')) s
           end.

(** [shutil.rmtree(p, ignore_errors=True)]: a directory goes with everything
    below it (the working directory and the root are only emptied, the
    failing [rmdir] of them being ignored); a file or a missing path is
    left as it is. *)
Definition rmtree (p : path) : FS unit :=
  fun s => if is_dir p s then (Ok tt, filter (fun e => negb (at_or_below p (fst e))) s)
           else (Ok tt, s).

(** [zipfile.ZipFile(p, 'r')]: the members of the archive. *)
Definition zip_open_read (p : path) : FS (list (string * content)) :=
  c <~ read_file p ;;
  match c with CZip ms => ret ms | _ => throw BadZipFile end.

(** [os.mkdir(p)] *)
Definition os_mkdir (p : path) : FS unit :=
  fun s => match fs_lookup p s with
           | Some _ => (Exc (FileExistsError p), s)
           | None => (_ <~ check_parent p ;; fun s' => (Ok tt, fs_put p NDir s')) s
           end.

(** [os.makedirs(name)] for a relative [name] whose proper ancestors,
    innermost first, are [ups]: the missing parent is made first (a
    [FileExistsError] from it is ignored), then [name]. *)
Fixpoint makedirs_rec (name : path) (ups : list path) : FS unit :=
  match ups with
  | [] => os_mkdir name
  | head :: ups' =>
      _ <~ (fun s => match fs_lookup head s with
                     | Some _ => (Ok tt, s)
                     | None =>
                         try_except (makedirs_rec head ups')
                           (fun e => match e with
                                     | FileExistsError _ => ret tt
                                     | _ => throw e
                                     end) s
                     end) ;;
      os_mkdir name
  end.

Definition os_makedirs (name : path) : FS unit :=
  makedirs_rec name (rev (ancestors name)).

(** The member name as [ZipFile._extract_member] rewrites it: its empty,
    "." and ".." parts dropped. *)
Definition clean_arcname (name : string) : string :=
  String.concat "/"
    (filter (fun x => negb (String.eqb x "" || String.eqb x "." || String.eqb x ".."))
            (split_sep name)).

(** [os.path.normpath(os.path.join(dir, arcname))], for the clean relative
    directory [dir] the loader extracts into. *)
Definition extract_target (dir : path) (name : string) : path :=
  let arcname := clean_arcname name in
  if String.eqb arcname "" then dir else path_join dir arcname.

(** [ZipFile._extract_member(member, dir)] (CPython 3.11): a name ending in
    [/] is a directory entry. *)
Definition extract_member (dir : path) (m : string * content) : FS unit :=
  let '(name, c) := m in
  let t := extract_target dir name in
  let upperdirs := parent t in
  _ <~ (fun s => if String.eqb upperdirs "" then (Ok tt, s)
                 else match fs_lookup upperdirs s with
                      | Some _ => (Ok tt, s)
                      | None => os_makedirs upperdirs s
                      end) ;;
  if ends_with "/" name
  then fun s => if is_dir t s then (Ok tt, s) else os_mkdir t s
  else write_file t c.

(** [ZipFile.extractall(dir)] *)
Fixpoint extractall (dir : path) (ms : list (string * content)) : FS unit :=
  match ms with
  | [] => ret tt
  | m :: r => _ <~ extract_member dir m ;; extractall dir r
  end.

(** [Path(dir).rglob('*')] restricted to files, with names relative to [dir]. *)
Definition rglob_files (dir : path) (s : fs) : list (string * content) :=
  if is_dir dir s then
    flat_map (fun e => match e with
                       | (q, NFile c) =>
                           if below dir q
                           then [(drop_prefix (String.length (dir_prefix dir)) q, c)] else []
                       | _ => []
                       end) s
  else [].

(** ** [load_model], [_load_aivis_model], [save_model], [_save_aivis_model] *)

(** [Path("temp_aivis_extract")]: the fixed staging directory. *)
Definition temp_dir : path := "temp_aivis_extract".

(** [FileNotFoundError("config.jsonが見つかりません")] *)
Definition missing_config : exn := FileNotFoundError "config.jsonが見つかりません".

Definition unsupported_format : exn := ValueError "サポートされていないファイル形式です".

(** The [try] block of [_load_aivis_model] (lines 40-49). *)
Definition load_aivis_body (model_path : path) : FS json :=
  ms <~ zip_open_read model_path ;;
  _ <~ extractall temp_dir ms ;;
  let config_path := path_join temp_dir "config.json" in
  e <~ path_exists config_path ;;
  if e then
    c <~ read_file config_path ;;
    config <~ lift (json_decode c) ;;
    ret (JObj [("type", JStr "aivis"); ("config", config); ("temp_dir", JStr temp_dir)])
  else throw missing_config.

Definition _load_aivis_model (model_path : path) : FS json :=
  _ <~ mkdir_exist_ok temp_dir ;;
  try_except (load_aivis_body model_path)
    (fun e => _ <~ rmtree temp_dir ;; throw e).

Definition load_model (model_path : path) : FS json :=
  if ends_with ".aivis" model_path then _load_aivis_model model_path
  else if ends_with ".json" model_path then
    c <~ read_file model_path ;; lift (json_decode c)
  else throw unsupported_format.

(** [Path(v)] accepts a string. *)
Definition as_path (v : json) : outcome path :=
  match v with JStr s => Ok (norm_path s) | _ => Exc TypeError end.

Definition _save_aivis_model (model_data : json) (output_path : path) : FS unit :=
  td <~ lift (py_getitem model_data "temp_dir") ;;
  tmp <~ lift (as_path td) ;;
  let config_path := path_join tmp "config.json" in
  _ <~ write_file config_path (CRaw "") ;;
  config <~ lift (py_getitem model_data "config") ;;
  _ <~ write_file config_path (CJson config) ;;
  _ <~ write_file output_path (CRaw "") ;;
  _ <~ (fun s => write_file output_path (CZip (rglob_files tmp s)) s) ;;
  rmtree tmp.

Definition save_model (model_data : json) (output_path : path) : FS unit :=
  a <~ lift (is_aivis model_data) ;;
  if a then _save_aivis_model model_data output_path
  else write_file output_path (CJson model_data).

(** One file of [process_files]: load, merge, save. *)
Definition process_file (input_file output_file : path) : FS unit :=
  model_data <~ load_model input_file ;;
  model_data' <~ lift (add_styles_to_model model_data) ;;
  save_model model_data' output_file.

(** ** [os.path] on POSIX strings, as [process_files] uses it *)

(** [p.rfind(c)]; [None] stands for Python's [-1]. *)
Fixpoint rfind (c : ascii) (p : string) : option nat :=
  match p with
  | EmptyString => None
  | String a r =>
      match rfind c r with
      | Some i => Some (S i)
      | None => if Ascii.eqb a c then Some 0 else None
      end
  end.

(** [rfind(...) + 1] *)
Definition after (i : option nat) : nat :=
  match i with Some i => S i | None => 0 end.

(** [os.path.basename(p)]: [p[p.rfind('/') + 1:]]. *)
Definition os_path_basename (p : string) : string :=
  drop_prefix (after (rfind "/" p)) p.

(** The loop [while filenameIndex < dotIndex] of [genericpath._splitext],
    run for the [n] indices left from [filenameIndex]: [true] when it finds a
    character other than ['.'] and returns the split. *)
Fixpoint skip_leading_dots (n filenameIndex : nat) (p : string) : bool :=
  match n with
  | O => false
  | S n' =>
      if negb (String.eqb (String.substring filenameIndex 1 p) ".") then true
      else skip_leading_dots n' (S filenameIndex) p
  end.

(** [os.path.splitext(p)] ([genericpath._splitext(p, '/', None, '.')]). *)
Definition os_path_splitext (p : string) : string * string :=
  let sepIndex := rfind "/" p in
  match rfind "." p with
  | Some dotIndex =>
      if Nat.ltb (after sepIndex) (S dotIndex) then
        let filenameIndex := after sepIndex in
        if skip_leading_dots (dotIndex - filenameIndex) filenameIndex p
        then (String.substring 0 dotIndex p, drop_prefix dotIndex p)
        else (p, "")
      else (p, "")
  | None => (p, "")
  end.

(** [os.path.join(a, b)] ([posixpath.join] with one more component). *)
Definition os_path_join (a b : string) : string :=
  if is_prefix "/" b then b
  else if String.eqb a "" || ends_with "/" a then a ++ b
  else a ++ "/" ++ b.

(** ** [AivisStyleGUI.process_files] *)

(** [str(n)] of a Python [int] that is a count. *)
Definition str_nat (n : nat) : string :=
  DecimalString.NilZero.string_of_uint (Nat.to_uint n).

(** Lines 307-311: the output path of one input file. *)
Definition output_file_name (output_dir input_file : path) : path :=
  let base_name := os_path_basename input_file in
  let name_without_ext := fst (os_path_splitext base_name) in
  let ext := snd (os_path_splitext base_name) in
  os_path_join output_dir (name_without_ext ++ "_styled" ++ ext).

(** What the worker thread hands to the Tk main loop with
    [self.root.after(0, ...)]. An error dialog keeps the file's base name and
    the exception; its text is [f"{base_name}の処理中にエラー: {str(e)}"]. *)
Inductive event : Type :=
| UpdateStatus (text : string)
| ShowError (base_name : string) (e : exn)
| ProcessComplete (success_count error_count : nat).

(** [f"処理中... ({i+1}/{len(self.input_files)})"] *)
Definition progress_text (i total : nat) : string :=
  "処理中... (" ++ str_nat (S i) ++ "/" ++ str_nat total ++ ")".

(** The [for i, input_file in enumerate(self.input_files)] loop from index
    [i] on, with the counters so far; every exception of one file is caught
    and counted, and the file system keeps what the failed file did. *)
Fixpoint process_files_from (output_dir : path) (total i : nat) (files : list path)
    (success_count error_count : nat) (s : fs) : list event * fs :=
  match files with
  | [] => ([ProcessComplete success_count error_count], s)
  | input_file :: r =>
      let ev := UpdateStatus (progress_text i total) in
      let base_name := os_path_basename input_file in
      let output_file := output_file_name output_dir input_file in
      match process_file input_file output_file s with
      | (Ok _, s') =>
          let '(evs, s'') :=
            process_files_from output_dir total (S i) r (S success_count) error_count s' in
          (ev :: evs, s'')
      | (Exc e, s') =>
          let '(evs, s'') :=
            process_files_from output_dir total (S i) r success_count (S error_count) s' in
          (ev :: ShowError base_name e :: evs, s'')
      end
  end.

(** [process_files], for the list of input files and the output folder it
    reads from [self]. *)
Definition process_files (input_files : list path) (output_dir : path) (s : fs)
  : list event * fs :=
  process_files_from output_dir (length input_files) 0 input_files 0 0 s.

(** ** The window state of [AivisStyleGUI] *)

(** A message box; an error box carries the file and the exception. *)
Inductive dialog : Type :=
| Warning (title message : string)
| Info (title message : string)
| ErrorBox (base_name : string) (e : exn).

(** The attributes the methods read or change: the selected files, the
    output folder, the lines of the list box, the texts of the status and
    output labels (with the latter's colour), the state of the execute
    button, whether the progress bar runs, and the message boxes shown so far,
    in order. *)
Record gui : Type := mk_gui {
  input_files : list path;
  output_dir : path;
  file_listbox : list string;
  status_label : string;
  output_label : string * string;
  execute_btn : string;
  progress_running : bool;
  dialogs : list dialog }.

(** The state [__init__] and [setup_ui] leave. *)
Definition init_gui : gui :=
  mk_gui [] "" [] "ファイルを選択してください" ("未選択", "gray") "normal" false [].

Definition with_status (t : string) (g : gui) : gui :=
  mk_gui g.(input_files) g.(output_dir) g.(file_listbox) t g.(output_label)
         g.(execute_btn) g.(progress_running) g.(dialogs).

Definition with_dialog (d : dialog) (g : gui) : gui :=
  mk_gui g.(input_files) g.(output_dir) g.(file_listbox) g.(status_label) g.(output_label)
         g.(execute_btn) g.(progress_running) (g.(dialogs) ++ [d]).

(** [update_file_list]: empty the list box, then one line per file. *)
Definition update_file_list (g : gui) : gui :=
  mk_gui g.(input_files) g.(output_dir) (map os_path_basename g.(input_files))
         g.(status_label) g.(output_label) g.(execute_btn) g.(progress_running) g.(dialogs).

(** [select_files], given what the dialog returned (nothing on cancel). *)
Definition select_files (files : list path) (g : gui) : gui :=
  match files with
  | [] => g
  | _ :: _ =>
      let g1 := mk_gui (g.(input_files) ++ files) g.(output_dir) g.(file_listbox)
                       g.(status_label) g.(output_label) g.(execute_btn)
                       g.(progress_running) g.(dialogs) in
      let g2 := update_file_list g1 in
      with_status (str_nat (length g2.(input_files)) ++ "個のファイルが選択されました") g2
  end.

(** [clear_files] *)
Definition clear_files (g : gui) : gui :=
  mk_gui [] g.(output_dir) [] "ファイルを選択してください" g.(output_label)
         g.(execute_btn) g.(progress_running) g.(dialogs).

(** [select_output_dir], given what the dialog returned ([""] on cancel). *)
Definition select_output_dir (directory : string) (g : gui) : gui :=
  if String.eqb directory "" then g
  else mk_gui g.(input_files) directory g.(file_listbox) g.(status_label)
              ("出力先: " ++ directory, "black") g.(execute_btn)
              g.(progress_running) g.(dialogs).

(** [execute_process]: the new state, and whether the worker thread started. *)
Definition execute_process (g : gui) : gui * bool :=
  match g.(input_files) with
  | [] => (with_dialog (Warning "警告" "モデルファイルを選択してください") g, false)
  | _ :: _ =>
      if String.eqb g.(output_dir) "" then
        (with_dialog (Warning "警告" "出力フォルダを選択してください") g, false)
      else
        (mk_gui g.(input_files) g.(output_dir) g.(file_listbox) g.(status_label)
                g.(output_label) "disabled" true g.(dialogs), true)
  end.

(** A line break inside a Python string literal. *)
Definition nl : string := String (Ascii.ascii_of_nat 10) EmptyString.

(** [process_complete] *)
Definition process_complete (success_count error_count : nat) (g : gui) : gui :=
  let g1 := mk_gui g.(input_files) g.(output_dir) g.(file_listbox) g.(status_label)
                   g.(output_label) "normal" false g.(dialogs) in
  let g2 :=
    if Nat.eqb error_count 0 then
      with_dialog (Info "完了" ("すべてのファイルの処理が完了しました！" ++ nl ++
                                 "成功: " ++ str_nat success_count ++ "個")) g1
    else
      with_dialog (Warning "完了" ("処理が完了しました。" ++ nl ++
                                    "成功: " ++ str_nat success_count ++ "個" ++ nl ++
                                    "エラー: " ++ str_nat error_count ++ "個")) g1 in
  with_status "処理完了" g2.

(** The main loop running one callback queued by the worker thread. *)
Definition run_event (g : gui) (ev : event) : gui :=
  match ev with
  | UpdateStatus t => with_status t g
  | ShowError b e => with_dialog (ErrorBox b e) g
  | ProcessComplete sc ec => process_complete sc ec g
  end.

(** Pressing the execute button: when the worker starts, it processes the
    files in the folder and the main loop then runs its callbacks in order
    (the batch is taken to run without the selection changing meanwhile). *)
Definition run_execute (g : gui) (s : fs) : gui * fs :=
  match execute_process g with
  | (g1, false) => (g1, s)
  | (g1, true) =>
      let '(evs, s') := process_files g1.(input_files) g1.(output_dir) s in
      (fold_left run_event evs g1, s')
  end.

(** The user's actions on the window. *)
Inductive action : Type :=
| SelectFiles (files : list path)
| ClearFiles
| SelectOutputDir (directory : string)
| Execute.

Definition step (a : action) (st : gui * fs) : gui * fs :=
  let '(g, s) := st in
  match a with
  | SelectFiles files => (select_files files g, s)
  | ClearFiles => (clear_files g, s)
  | SelectOutputDir d => (select_output_dir d g, s)
  | Execute => run_execute g s
  end.

(** The window after a sequence of actions from its start. *)
Definition run_actions (acts : list action) (s : fs) : gui * fs :=
  fold_left (fun st a => step a st) acts (init_gui, s).

(** The catalog table of the specification (section 6): identifier,
    display name and parameter record; the claims compare against it. *)
Definition spec_catalog : list (string * string * json) :=
  [ ("normal", "Normal", param_record 1.0 0.0 1.0 1.0 0.5);
    ("standard", "Standard", param_record 1.0 0.0 1.0 1.0 0.5);
    ("high_tension", "High Tension", param_record 1.2 0.2 1.5 1.2 0.8);
    ("calm", "Calm", param_record 0.9 (-0.1) 0.8 0.9 0.3);
    ("cheerful", "Cheerful", param_record 1.1 0.1 1.3 1.1 0.7);
    ("emotional", "Emotional", param_record 0.95 (-0.2) 1.4 1.0 0.9) ].

(** The identifiers of [self.styles], in order. *)
Definition catalog_ids : list string := map fst styles.

(** The [styles] dict of the configuration of a document, if it is a dict. *)
Definition styles_of (model_data : json) : option (list (string * json)) :=
  match select_config model_data with
  | Ok (JObj kv) => match lookup "styles" kv with Some (JObj st) => Some st | _ => None end
  | _ => None
  end.

(** The entry of a style identifier in a document's styles, if any. *)
Definition style_of (model_data : json) (k : string) : option json :=
  match styles_of model_data with Some st => lookup k st | None => None end.

(** The [name] of the entry of a style identifier. *)
Definition display_name (model_data : json) (k : string) : option json :=
  match style_of model_data k with
  | Some (JObj e) => lookup "name" e
  | _ => None
  end.


(** Load, merge, save, and load the saved file again. *)
Definition roundtrip (input_file output_file : path) : FS json :=
  _ <~ process_file input_file output_file ;;
  load_model output_file.

(** ** Auxiliary definitions of the proofs and examples *)

(** The styles dict after the loop of lines 64-68, from [st]. *)
Definition insert_all (st : list (string * json)) (items : list (string * string))
  : list (string * json) :=
  fold_left (fun acc p => set (fst p) (style_entry (fst p) (snd p)) acc) items st.

(** The styles the merge starts from: none, or the existing dict. *)
Definition styles_base (kv : list (string * json)) : option (list (string * json)) :=
  match lookup "styles" kv with
  | None => Some []
  | Some (JObj st) => Some st
  | Some _ => None
  end.

(** The example of the specification: one speaker without styles. *)
Definition ex_doc : json := JObj [("speakers", JArr [JObj [("id", JInt 1)]])].

(** [ex_doc] after the merge. *)
Definition ex_merged : json :=
  match add_styles_to_model ex_doc with Ok d => d | Exc _ => JNull end.

(** A configuration that already has a style of its own. *)
Definition ex_custom_doc : json := JObj [("styles", JObj [("custom", JNull)])].

(** A plain JSON object carrying the packaged tag. *)
Definition ex_tagged_doc : json := JObj [("type", JStr "aivis")].

(** The six identifiers in catalog order, as the claims list them. *)
Definition six_ids : json :=
  JArr [JStr "normal"; JStr "standard"; JStr "high_tension"; JStr "calm";
        JStr "cheerful"; JStr "emotional"].

(** What the merge does to one speaker dict: one without "styles" gets the
    six identifiers, one with "styles" is left as it is. *)
Definition speaker_merged (sp sp' : json) : Prop :=
  match sp with
  | JObj f =>
      exists f', sp' = JObj f' /\
        (lookup "styles" f = None -> lookup "styles" f' = Some six_ids) /\
        (forall v, lookup "styles" f = Some v -> sp' = sp)
  | _ => False
  end.

(** [temp_dir / "config.json"] *)
Definition staging_config : path := "temp_aivis_extract/config.json".

(** No directory is removed or replaced by running [m]. *)
Definition keeps_dirs {A} (m : FS A) : Prop :=
  forall s r s' q, m s = (r, s') -> fs_lookup q s = Some NDir -> fs_lookup q s' = Some NDir.

(** Running [m] changes no path outside [R]. *)
Definition frames {A} (R : path -> Prop) (m : FS A) : Prop :=
  forall s r s' q, m s = (r, s') -> ~ R q -> fs_lookup q s' = fs_lookup q s.

(** [q] is [t] or one of the directories above it. *)
Definition on_path (q t : path) : Prop := q = t \/ exists v, t = q ++ String "/" v.


(** Two archives, one with [config.json] and one without. *)
Definition two_archives_fs : fs :=
  [("a.aivis", NFile (CZip [("config.json", CJson (JObj [("speakers", JArr [])]));
                            ("weights.bin", CRaw "a")]));
   ("b.aivis", NFile (CZip [("weights.bin", CRaw "b")]))].

(** A plain JSON model file. *)
Definition rt_fs (doc : json) : fs := [("model.json", NFile (CJson doc))].

(** Every character is a dot. *)
Fixpoint all_dots (x : string) : bool :=
  match x with
  | EmptyString => true
  | String a r => Ascii.eqb a "."%char && all_dots r
  end.

Definition is_error_event (ev : event) : bool :=
  match ev with ShowError _ _ => true | _ => false end.

Definition is_status_event (ev : event) : bool :=
  match ev with UpdateStatus _ => true | _ => false end.

Definition is_complete_event (ev : event) : bool :=
  match ev with ProcessComplete _ _ => true | _ => false end.

Definition error_dialogs (evs : list event) : list dialog :=
  flat_map (fun ev => match ev with ShowError b e => [ErrorBox b e] | _ => [] end) evs.

(** ** Association lists *)

Lemma lookup_set_eq k v kv : lookup k (set k v kv) = Some v.
Proof.
  induction kv as [|[k' v'] r IH]; simpl.
  - now rewrite String.eqb_refl.
  - destruct (String.eqb_spec k k') as [->|Hne]; simpl.
    + now rewrite String.eqb_refl.
    + apply String.eqb_neq in Hne. now rewrite Hne.
Qed.

Lemma lookup_set_neq k k' v kv : k' <> k -> lookup k' (set k v kv) = lookup k' kv.
Proof.
  intros Hne. induction kv as [|[k0 v0] r IH]; simpl.
  - apply String.eqb_neq in Hne. now rewrite Hne.
  - destruct (String.eqb_spec k k0) as [->|Hk]; simpl.
    + apply String.eqb_neq in Hne. now rewrite Hne.
    + now rewrite IH.
Qed.

Lemma set_lookup_same k v kv : lookup k kv = Some v -> set k v kv = kv.
Proof.
  induction kv as [|[k0 v0] r IH]; simpl; [discriminate|].
  destruct (String.eqb k k0); [congruence|].
  intros H. now rewrite IH.
Qed.

Lemma set_set k v v' kv : set k v (set k v' kv) = set k v kv.
Proof.
  induction kv as [|[k0 v0] r IH]; simpl.
  - now rewrite String.eqb_refl.
  - destruct (String.eqb k k0) eqn:E; simpl; rewrite E; [reflexivity|].
    now rewrite IH.
Qed.

Lemma has_key_set k k' v kv :
  has_key k' (set k v kv) = if String.eqb k' k then true else has_key k' kv.
Proof.
  unfold has_key. destruct (String.eqb_spec k' k) as [->|Hne].
  - now rewrite lookup_set_eq.
  - now rewrite lookup_set_neq.
Qed.

Lemma lookup_has_key k kv v : lookup k kv = Some v -> has_key k kv = true.
Proof. unfold has_key. now intros ->. Qed.

(** ** The style table after [insert_styles] *)

Lemma insert_styles_obj items kv st :
  lookup "styles" kv = Some (JObj st) ->
  insert_styles (JObj kv) items = Ok (JObj (set "styles" (JObj (insert_all st items)) kv)).
Proof.
  revert kv st. induction items as [|[id nm] r IH]; intros kv st H; simpl.
  - now rewrite set_lookup_same.
  - rewrite H. simpl.
    rewrite (IH _ (set id (style_entry id nm) st)) by apply lookup_set_eq.
    now rewrite set_set.
Qed.

Lemma insert_all_catalog st id name :
  In (id, name) styles -> lookup id (insert_all st styles) = Some (style_entry id name).
Proof.
  intros Hin. unfold insert_all. simpl fold_left.
  repeat destruct Hin as [Hin|Hin]; try contradiction; injection Hin as <- <-;
    repeat (rewrite lookup_set_neq by discriminate); apply lookup_set_eq.
Qed.

Lemma insert_all_other st k :
  ~ In k catalog_ids -> lookup k (insert_all st styles) = lookup k st.
Proof.
  intros Hk. unfold insert_all. simpl fold_left. simpl in Hk.
  repeat (rewrite lookup_set_neq by (intro; subst; tauto)). reflexivity.
Qed.

(** A table holding every catalog entry is left as it is. *)
Lemma insert_all_fixed st items :
  (forall id name, In (id, name) items -> lookup id st = Some (style_entry id name)) ->
  insert_all st items = st.
Proof.
  revert st. induction items as [|[id nm] r IH]; intros st H; simpl; [reflexivity|].
  rewrite set_lookup_same by (apply H; now left).
  apply IH. intros; apply H; now right.
Qed.

Lemma merge_config_obj kv :
  merge_config (JObj kv) =
  match styles_base kv with
  | Some st => add_speaker_styles (JObj (set "styles" (JObj (insert_all st styles)) kv))
  | None => Exc TypeError
  end.
Proof.
  unfold merge_config, styles_base. cbn [py_contains obind]. unfold has_key.
  destruct (lookup "styles" kv) as [v|] eqn:E; cbn [obind py_setitem].
  - destruct v as [| | | | | |st];
      try (cbn [insert_styles styles py_getitem obind]; rewrite E; reflexivity).
    now rewrite (insert_styles_obj styles kv st E).
  - rewrite (insert_styles_obj styles _ []) by apply lookup_set_eq.
    now rewrite set_set.
Qed.

Lemma merge_config_is_obj c c' : merge_config c = Ok c' -> exists kv, c = JObj kv.
Proof.
  destruct c; unfold merge_config; simpl; try discriminate; eauto;
    repeat match goal with |- context [if ?b then _ else _] => destruct b end;
    simpl; discriminate.
Qed.

(** ** The speaker loop *)

Lemma update_speakers_fix l l' : update_speakers l = Ok l' -> update_speakers l' = Ok l'.
Proof.
  revert l'. induction l as [|sp r IH]; intros l' H; simpl in H.
  - now injection H as <-.
  - destruct (py_contains "styles" sp) as [b|e] eqn:C; simpl in H; [|discriminate].
    destruct (update_speakers r) as [r'|e] eqn:R;
      [|destruct b; [|destruct (py_setitem sp "styles" style_keys)]; discriminate].
    destruct b; simpl in H.
    + injection H as <-. simpl. rewrite C. simpl. now rewrite (IH r').
    + destruct sp as [| | | | | |f]; simpl in H; try discriminate.
      injection H as <-. simpl. unfold has_key. rewrite lookup_set_eq. simpl.
      now rewrite (IH r').
Qed.

Lemma add_speaker_styles_frame kv c' :
  add_speaker_styles (JObj kv) = Ok c' ->
  exists kv', c' = JObj kv' /\ forall k, k <> "speakers" -> lookup k kv' = lookup k kv.
Proof.
  unfold add_speaker_styles. cbn [py_contains obind].
  destruct (has_key "speakers" kv); [|intros H; injection H as <-; eauto].
  cbn [py_getitem]. destruct (lookup "speakers" kv) as [sp|]; [|discriminate]. cbn [obind].
  destruct (py_iter sp) as [l|]; [|discriminate]. cbn [obind].
  destruct (update_speakers l) as [l'|]; [|discriminate]. cbn [obind].
  destruct sp; intros H; injection H as <-; eauto.
  eexists; split; [reflexivity|]. intros k Hk. now apply lookup_set_neq.
Qed.

Lemma add_speaker_styles_arr kv sps :
  lookup "speakers" kv = Some (JArr sps) ->
  add_speaker_styles (JObj kv) = obind (update_speakers sps) (fun l' => Ok (JObj (set "speakers" (JArr l') kv))).
Proof.
  intros H. unfold add_speaker_styles. cbn [py_contains obind].
  rewrite (lookup_has_key _ _ _ H). cbn [py_getitem]. rewrite H. reflexivity.
Qed.

Lemma add_speaker_styles_idem kv c' :
  add_speaker_styles (JObj kv) = Ok c' -> add_speaker_styles c' = Ok c'.
Proof.
  intros H. pose proof H as H0. revert H0.
  unfold add_speaker_styles at 1. cbn [py_contains obind].
  destruct (has_key "speakers" kv); [|intros E; injection E as <-; exact H].
  cbn [py_getitem]. destruct (lookup "speakers" kv) as [sp|] eqn:S; [|discriminate]. cbn [obind].
  destruct (py_iter sp) as [l|]; [|discriminate]. cbn [obind].
  destruct (update_speakers l) as [l'|] eqn:U; [|discriminate]. cbn [obind].
  destruct sp; intros E; injection E as <-; try exact H.
  cbn [py_iter] in U. rewrite (add_speaker_styles_arr _ l') by apply lookup_set_eq.
  rewrite (update_speakers_fix _ _ U). simpl. now rewrite set_set.
Qed.

(** ** The merge of a configuration *)

Lemma merge_config_shape kv c' :
  merge_config (JObj kv) = Ok c' ->
  exists st kv', styles_base kv = Some st /\ c' = JObj kv' /\
    lookup "styles" kv' = Some (JObj (insert_all st styles)) /\
    (forall k, k <> "styles" -> k <> "speakers" -> lookup k kv' = lookup k kv) /\
    add_speaker_styles (JObj (set "styles" (JObj (insert_all st styles)) kv)) = Ok c'.
Proof.
  rewrite merge_config_obj. destruct (styles_base kv) as [st|]; [|discriminate].
  intros H. destruct (add_speaker_styles_frame _ _ H) as (kv' & -> & Hf).
  exists st, kv'. repeat split; auto.
  - rewrite Hf by discriminate. apply lookup_set_eq.
  - intros k H1 H2. rewrite Hf by assumption. now apply lookup_set_neq.
Qed.

Lemma merge_config_idem c c' : merge_config c = Ok c' -> merge_config c' = Ok c'.
Proof.
  intros H. destruct (merge_config_is_obj _ _ H) as [kv ->].
  destruct (merge_config_shape _ _ H) as (st & kv' & Hb & -> & Hs & _ & Ha).
  rewrite merge_config_obj. unfold styles_base. rewrite Hs.
  rewrite (insert_all_fixed (insert_all st styles) styles) by (intros; now apply insert_all_catalog).
  rewrite (set_lookup_same _ _ _ Hs).
  exact (add_speaker_styles_idem _ _ Ha).
Qed.

(** ** [add_styles_to_model] on documents *)

Lemma is_aivis_frame kv kv' :
  lookup "type" kv' = lookup "type" kv -> is_aivis (JObj kv') = is_aivis (JObj kv).
Proof. intros H. unfold is_aivis. now rewrite H. Qed.

Lemma add_styles_inv d d' :
  add_styles_to_model d = Ok d' ->
  exists c c', select_config d = Ok c /\ merge_config c = Ok c' /\
    select_config d' = Ok c' /\ is_aivis d' = is_aivis d.
Proof.
  unfold add_styles_to_model, select_config.
  destruct (is_aivis d) as [a|] eqn:A; cbn [obind]; [|discriminate].
  destruct d as [| | | | | |kv]; try discriminate.
  destruct a.
  - cbn [py_getitem]. destruct (lookup "config" kv) as [c|] eqn:C; [|discriminate]. cbn [obind].
    destruct (merge_config c) as [c'|] eqn:M; [|discriminate]. cbn [obind py_setitem].
    intros H. injection H as <-.
    assert (A' : is_aivis (JObj (set "config" c' kv)) = Ok true).
    { rewrite <- A. apply is_aivis_frame. now apply lookup_set_neq. }
    exists c, c'. rewrite A'. cbn [obind py_getitem]. rewrite lookup_set_eq. auto.
  - intros M. exists (JObj kv), d'. split; [reflexivity|]. split; [exact M|].
    destruct (merge_config_shape _ _ M) as (st & kv' & _ & -> & _ & Hf & _).
    assert (A' : is_aivis (JObj kv') = Ok false).
    { rewrite <- A. apply is_aivis_frame. now apply Hf. }
    rewrite A'. auto.
Qed.

Lemma add_styles_of_merge d c c' :
  select_config d = Ok c -> merge_config c = Ok c' ->
  exists d', add_styles_to_model d = Ok d' /\ select_config d' = Ok c'.
Proof.
  intros S M.
  assert (E : exists d', add_styles_to_model d = Ok d').
  { unfold select_config in S. unfold add_styles_to_model.
    destruct (is_aivis d) as [[|]|]; cbn [obind] in *; try discriminate.
    - rewrite S. cbn [obind]. rewrite M. cbn [obind].
      destruct d as [| | | | | |kv]; try discriminate. cbn [py_setitem]. eauto.
    - injection S as ->. rewrite M. eauto. }
  destruct E as [d' E]. exists d'. split; [exact E|].
  destruct (add_styles_inv _ _ E) as (c0 & c1 & S0 & M0 & S1 & _).
  rewrite S in S0. injection S0 as <-. rewrite M in M0. injection M0 as <-. exact S1.
Qed.

Lemma add_styles_table d d' :
  add_styles_to_model d = Ok d' ->
  exists st', styles_of d' = Some st' /\
    (forall id name, In (id, name) styles -> lookup id st' = Some (style_entry id name)) /\
    (forall k, ~ In k catalog_ids -> lookup k st' = style_of d k).
Proof.
  intros E. destruct (add_styles_inv _ _ E) as (c & c' & S & M & S' & _).
  destruct (merge_config_is_obj _ _ M) as [kv ->].
  destruct (merge_config_shape _ _ M) as (st & kv' & Hb & -> & Hs & _ & _).
  exists (insert_all st styles). split; [|split].
  - unfold styles_of. now rewrite S', Hs.
  - intros id name Hin. now apply insert_all_catalog.
  - intros k Hk. rewrite insert_all_other by exact Hk.
    unfold style_of, styles_of. rewrite S. unfold styles_base in Hb.
    destruct (lookup "styles" kv) as [[| | | | | |st0]|]; try discriminate;
      injection Hb as <-; reflexivity.
Qed.

(** A table holding the merge's entries holds the specification's rows. *)
Lemma catalog_rows st' :
  (forall id name, In (id, name) styles -> lookup id st' = Some (style_entry id name)) ->
  forall id name params, In (id, name, params) spec_catalog ->
    exists nm, lookup id st' = Some (JObj [("name", JStr nm); ("parameters", params)]).
Proof.
  intros Hin id name params Hrow.
  assert (Hnm : exists nm, In (id, nm) styles /\ _get_style_parameters id = params).
  { repeat destruct Hrow as [Hrow|Hrow]; try contradiction; injection Hrow as <- <- <-;
      eexists; (split; [simpl; repeat (first [left; reflexivity | right]) | reflexivity]). }
  destruct Hnm as (nm & Hnm & Hp). exists nm. rewrite (Hin _ _ Hnm). unfold style_entry.
  now rewrite Hp.
Qed.

(** ** Example documents *)

Example ex_doc_merged :
  add_styles_to_model ex_doc = Ok ex_merged /\
  style_of ex_merged "high_tension" =
    Some (JObj [("name", JStr "テンション高め"); ("parameters", param_record 1.2 0.2 1.5 1.2 0.8)]).
Proof. split; vm_compute; reflexivity. Qed.

(** ** Claims on the merge *)

(** C1 (as amended). After [add_styles_to_model] succeeds, the styles dict of
    the configuration maps each identifier of the specification's catalog to
    an entry whose [parameters] record is exactly the tabulated one; any other
    identifier keeps the entry the configuration had before, so the dict holds
    exactly the six identifiers only when it held no other before. *)
Theorem add_styles_catalog_params d d' :
  add_styles_to_model d = Ok d' ->
  exists st', styles_of d' = Some st' /\
    (forall id name params, In (id, name, params) spec_catalog ->
       exists nm, lookup id st' = Some (JObj [("name", JStr nm); ("parameters", params)])) /\
    (forall k, ~ In k catalog_ids -> lookup k st' = style_of d k).
Proof.
  intros E. destruct (add_styles_table _ _ E) as (st' & Hs & Hin & Hout).
  exists st'. split; [exact Hs|]. split; [|exact Hout].
  exact (catalog_rows _ Hin).
Qed.

Lemma add_styles_catalog_params_witness :
  add_styles_to_model ex_doc = Ok ex_merged /\
  exists st', styles_of ex_merged = Some st' /\
    (forall id name params, In (id, name, params) spec_catalog ->
       exists nm, lookup id st' = Some (JObj [("name", JStr nm); ("parameters", params)])) /\
    (forall k, ~ In k catalog_ids -> lookup k st' = style_of ex_doc k).
Proof.
  assert (H : add_styles_to_model ex_doc = Ok ex_merged) by (vm_compute; reflexivity).
  split; [exact H|]. exact (add_styles_catalog_params _ _ H).
Defined.

(** C1 fails as stated: a style already present under another identifier
    survives the merge, so the styles dict holds seven identifiers. *)
Lemma add_styles_keeps_other_styles :
  match add_styles_to_model ex_custom_doc with
  | Ok d' => exists st, styles_of d' = Some st /\ map fst st <> catalog_ids /\
                        lookup "custom" st = Some JNull
  | Exc _ => False
  end.
Proof.
  vm_compute. eexists. split; [reflexivity|]. split; [intros Hc; discriminate Hc|reflexivity].
Qed.

(** C3. [add_styles_to_model] is idempotent: running it on its own result
    gives the same document back (so in particular the same styles), and it
    fails on the second run exactly when it failed on the first. *)
Theorem add_styles_idempotent d :
  obind (add_styles_to_model d) add_styles_to_model = add_styles_to_model d.
Proof.
  destruct (add_styles_to_model d) as [d'|e] eqn:E; cbn [obind]; [|reflexivity].
  destruct (add_styles_inv _ _ E) as (c & c' & _ & M & S' & _).
  pose proof (merge_config_idem _ _ M) as M'.
  unfold select_config in S'. unfold add_styles_to_model.
  destruct (is_aivis d') as [[|]|]; cbn [obind] in *; try discriminate.
  - rewrite S'. cbn [obind]. rewrite M'. cbn [obind].
    destruct d' as [| | | | | |kv']; try discriminate. cbn [py_getitem py_setitem] in *.
    destruct (lookup "config" kv') eqn:L; [|discriminate]. injection S' as ->.
    now rewrite (set_lookup_same _ _ _ L).
  - injection S' as ->. exact M'.
Qed.

(** C8 (as amended). The entries inserted by the merge carry the display
    names of [self.styles]: normal "ノーマル", standard "通常", high_tension
    "テンション高め", calm "落ち着き", cheerful "上機嫌", emotional "怒り・悲しみ". *)
Theorem add_styles_display_names d d' :
  add_styles_to_model d = Ok d' ->
  forall id name, In (id, name) styles -> display_name d' id = Some (JStr name).
Proof.
  intros E id name Hin. destruct (add_styles_table _ _ E) as (st' & Hs & Hc & _).
  unfold display_name, style_of. rewrite Hs, (Hc _ _ Hin). reflexivity.
Qed.

Lemma add_styles_display_names_witness :
  add_styles_to_model ex_doc = Ok ex_merged /\
  display_name ex_merged "calm" = Some (JStr "落ち着き").
Proof.
  assert (H : add_styles_to_model ex_doc = Ok ex_merged) by (vm_compute; reflexivity).
  split; [exact H|]. apply (add_styles_display_names _ _ H). simpl; tauto.
Defined.

(** C8 fails as stated: the entry of "normal" is named "ノーマル", not the
    "Normal" of the specification's table. *)
Lemma normal_display_name_not_english :
  add_styles_to_model ex_doc = Ok ex_merged /\
  display_name ex_merged "normal" = Some (JStr "ノーマル") /\
  display_name ex_merged "normal" <> Some (JStr "Normal").
Proof.
  split; [vm_compute; reflexivity|]. split; [vm_compute; reflexivity|].
  vm_compute. intros Hc; discriminate Hc.
Qed.

(** C9. [_get_style_parameters] falls back to the "normal" record for any
    identifier outside the catalog, without failing. *)
Theorem get_style_parameters_fallback style_id :
  ~ In style_id catalog_ids ->
  _get_style_parameters style_id =
  JObj [("speed", JFloat 1.0); ("pitch", JFloat 0.0); ("intonation", JFloat 1.0);
        ("volume", JFloat 1.0); ("emotion_strength", JFloat 0.5)].
Proof.
  intros H. unfold _get_style_parameters, style_params. cbn [lookup].
  repeat match goal with
         | |- context [String.eqb style_id ?s] =>
             destruct (String.eqb_spec style_id s) as [->|_]; [exfalso; apply H; simpl; tauto|]
         end.
  reflexivity.
Qed.

Lemma get_style_parameters_fallback_witness :
  ~ In "whisper" catalog_ids /\
  _get_style_parameters "whisper" =
  JObj [("speed", JFloat 1.0); ("pitch", JFloat 0.0); ("intonation", JFloat 1.0);
        ("volume", JFloat 1.0); ("emotion_strength", JFloat 0.5)].
Proof.
  assert (H : ~ In "whisper" catalog_ids)
    by (intros Hin; simpl in Hin; repeat destruct Hin as [Hin|Hin]; discriminate || contradiction).
  split; [exact H|]. exact (get_style_parameters_fallback _ H).
Defined.

(** C10. The packaged tag lives in the document: a plain JSON file whose
    object maps "type" to "aivis" is loaded as it is, yet [add_styles_to_model]
    takes the packaged branch and fails on the missing "config" key (the plain
    merge of the same object would succeed), and [save_model] takes the
    packaged branch too and fails on the missing "temp_dir" key. *)
Theorem aivis_tag_in_plain_json :
  let s := [("model.json", NFile (CJson ex_tagged_doc))] in
  load_model "model.json" s = (Ok ex_tagged_doc, s) /\
  is_aivis ex_tagged_doc = Ok true /\
  add_styles_to_model ex_tagged_doc = Exc (KeyError "config") /\
  (exists c', merge_config ex_tagged_doc = Ok c') /\
  fst (save_model ex_tagged_doc "model_styled.json" s) = Exc (KeyError "temp_dir").
Proof.
  intros s. split; [reflexivity|]. split; [reflexivity|]. split; [reflexivity|].
  split; [eexists; reflexivity|reflexivity].
Qed.

(** ** The speakers *)

Lemma update_speakers_objs sps :
  Forall (fun sp => exists f, sp = JObj f) sps ->
  exists sps', update_speakers sps = Ok sps' /\ Forall2 speaker_merged sps sps'.
Proof.
  induction 1 as [|sp r [f ->] _ [r' [R F]]]; [exists []; split; constructor|].
  simpl. unfold has_key. destruct (lookup "styles" f) as [v|] eqn:L; cbn [obind].
  - rewrite R. cbn [obind]. eexists; split; [reflexivity|]. constructor; [|exact F].
    exists f. rewrite L. split; [reflexivity|]. split; [discriminate|auto].
  - cbn [py_setitem obind]. rewrite R. cbn [obind]. eexists; split; [reflexivity|].
    constructor; [|exact F]. eexists. split; [reflexivity|]. rewrite L.
    split; [intros _; apply lookup_set_eq|discriminate].
Qed.

(** C2. For a configuration whose "styles" is absent or a dict and whose
    "speakers" is a list of speaker dicts, the merge succeeds; each speaker
    without "styles" then has the six identifiers in catalog order, and each
    speaker that had "styles" is left unchanged. *)
Theorem merge_speaker_styles d kv sps :
  select_config d = Ok (JObj kv) ->
  (lookup "styles" kv = None \/ exists st, lookup "styles" kv = Some (JObj st)) ->
  lookup "speakers" kv = Some (JArr sps) ->
  Forall (fun sp => exists f, sp = JObj f) sps ->
  exists d' kv' sps', add_styles_to_model d = Ok d' /\ select_config d' = Ok (JObj kv') /\
    lookup "speakers" kv' = Some (JArr sps') /\ Forall2 speaker_merged sps sps'.
Proof.
  intros S Hst Hsp Hobj.
  destruct (update_speakers_objs _ Hobj) as (sps' & U & F).
  assert (Hb : exists st, styles_base kv = Some st).
  { unfold styles_base. destruct Hst as [->|[st ->]]; eauto. }
  destruct Hb as [st Hb].
  set (kv2 := set "speakers" (JArr sps') (set "styles" (JObj (insert_all st styles)) kv)).
  assert (M : merge_config (JObj kv) = Ok (JObj kv2)).
  { rewrite merge_config_obj, Hb.
    rewrite (add_speaker_styles_arr _ sps) by (rewrite lookup_set_neq by discriminate; exact Hsp).
    rewrite U. reflexivity. }
  destruct (add_styles_of_merge _ _ _ S M) as (d' & E & S').
  exists d', kv2, sps'. repeat split; auto. apply lookup_set_eq.
Qed.

Lemma merge_speaker_styles_witness :
  exists d' kv' sps', add_styles_to_model ex_doc = Ok d' /\ select_config d' = Ok (JObj kv') /\
    lookup "speakers" kv' = Some (JArr sps') /\
    Forall2 speaker_merged [JObj [("id", JInt 1)]] sps'.
Proof.
  apply (merge_speaker_styles ex_doc [("speakers", JArr [JObj [("id", JInt 1)]])]).
  - reflexivity.
  - left; reflexivity.
  - reflexivity.
  - repeat constructor. eexists; reflexivity.
Defined.

(** ** File-system lemmas *)

Lemma str_app_assoc a b c : (a ++ b) ++ c = a ++ (b ++ c).
Proof. induction a as [|x a IH]; simpl; [reflexivity|now rewrite IH]. Qed.

Lemma str_app_nil_r a : a ++ "" = a.
Proof. induction a as [|x a IH]; simpl; [reflexivity|now rewrite IH]. Qed.


Lemma str_length_app a b : String.length (a ++ b) = String.length a + String.length b.
Proof. induction a as [|x a IH]; simpl; [reflexivity|now rewrite IH]. Qed.



Lemma fs_lookup_put q p n s :
  fs_lookup q (fs_put p n s) = if String.eqb q p then Some n else fs_lookup q s.
Proof.
  induction s as [|[q0 m] r IH]; simpl.
  - destruct (String.eqb q p); reflexivity.
  - destruct (String.eqb_spec p q0) as [->|Hne]; simpl.
    + destruct (String.eqb q q0); reflexivity.
    + rewrite IH. destruct (String.eqb_spec q p) as [->|]; [|reflexivity].
      apply String.eqb_neq in Hne. now rewrite Hne.
Qed.

Lemma rmtree_ok p s : rmtree p s = (Ok tt, snd (rmtree p s)).
Proof. unfold rmtree. destruct (is_dir p s); reflexivity. Qed.

Lemma fs_lookup_rmtree q p s :
  fs_lookup q (snd (rmtree p s)) =
    if is_dir p s && at_or_below p q then None else fs_lookup q s.
Proof.
  unfold rmtree. destruct (is_dir p s); simpl; [|reflexivity].
  induction s as [|[q0 m] r IH]; simpl.
  - destruct (at_or_below p q); reflexivity.
  - destruct (at_or_below p q0) eqn:A; simpl.
    + rewrite IH. destruct (String.eqb_spec q q0) as [->|]; [now rewrite A|reflexivity].
    + destruct (String.eqb_spec q q0) as [->|]; [now rewrite A|exact IH].
Qed.


Lemma check_parent_state p s r s' : check_parent p s = (r, s') -> s' = s.
Proof.
  unfold check_parent. destruct (String.eqb (parent p) "");
    [|destruct (fs_lookup (parent p) s) as [[|]|]]; congruence.
Qed.

Lemma write_file_state p c s r s' :
  write_file p c s = (r, s') ->
  (r = Ok tt /\ s' = fs_put p (NFile c) s) \/ (exists e, r = Exc e /\ s' = s).
Proof.
  unfold write_file, fbind. destruct (check_parent p s) as [[[]|e] s0] eqn:C;
    apply check_parent_state in C; subst s0.
  - destruct (fs_lookup p s) as [[|]|]; intros H; injection H as <- <-; eauto.
  - intros H; injection H as <- <-; eauto.
Qed.

(** *** Directories kept and paths touched *)

Lemma keeps_dirs_bind {A B} (m : FS A) (k : A -> FS B) :
  keeps_dirs m -> (forall a, keeps_dirs (k a)) -> keeps_dirs (fbind m k).
Proof.
  intros Hm Hk s r s' q. unfold fbind. destruct (m s) as [[a|e] s1] eqn:M.
  - intros H Hq. exact (Hk a _ _ _ _ H (Hm _ _ _ _ M Hq)).
  - intros H Hq. injection H as _ <-. exact (Hm _ _ _ _ M Hq).
Qed.

Lemma frames_bind {A B} (R : path -> Prop) (m : FS A) (k : A -> FS B) :
  frames R m -> (forall a, frames R (k a)) -> frames R (fbind m k).
Proof.
  intros Hm Hk s r s' q. unfold fbind. destruct (m s) as [[a|e] s1] eqn:M.
  - intros H Hq. rewrite (Hk a _ _ _ _ H Hq). exact (Hm _ _ _ _ M Hq).
  - intros H Hq. injection H as _ <-. exact (Hm _ _ _ _ M Hq).
Qed.

Lemma keeps_dirs_try {A} (m : FS A) (h : exn -> FS A) :
  keeps_dirs m -> (forall e, keeps_dirs (h e)) -> keeps_dirs (try_except m h).
Proof.
  intros Hm Hh s r s' q. unfold try_except. destruct (m s) as [[a|e] s1] eqn:M.
  - intros H Hq. injection H as _ <-. exact (Hm _ _ _ _ M Hq).
  - intros H Hq. exact (Hh e _ _ _ _ H (Hm _ _ _ _ M Hq)).
Qed.

Lemma frames_try {A} (R : path -> Prop) (m : FS A) (h : exn -> FS A) :
  frames R m -> (forall e, frames R (h e)) -> frames R (try_except m h).
Proof.
  intros Hm Hh s r s' q. unfold try_except. destruct (m s) as [[a|e] s1] eqn:M.
  - intros H Hq. injection H as _ <-. exact (Hm _ _ _ _ M Hq).
  - intros H Hq. rewrite (Hh e _ _ _ _ H Hq). exact (Hm _ _ _ _ M Hq).
Qed.

Lemma keeps_dirs_pure {A} (m : FS A) : (forall s, snd (m s) = s) -> keeps_dirs m.
Proof. intros Hm s r s' q H Hq. pose proof (Hm s) as E. rewrite H in E. simpl in E. now subst. Qed.

Lemma frames_pure {A} (R : path -> Prop) (m : FS A) : (forall s, snd (m s) = s) -> frames R m.
Proof. intros Hm s r s' q H _. pose proof (Hm s) as E. rewrite H in E. simpl in E. now subst. Qed.

Lemma frames_weaken {A} (R R' : path -> Prop) (m : FS A) :
  (forall q, R q -> R' q) -> frames R m -> frames R' m.
Proof. intros HR Hm s r s' q H Hq. apply (Hm _ _ _ _ H). intros Hr. exact (Hq (HR _ Hr)). Qed.



Lemma write_file_keeps_dirs p c : keeps_dirs (write_file p c).
Proof.
  intros s r s' q. unfold write_file, fbind.
  destruct (check_parent p s) as [[[]|e] s0] eqn:C; apply check_parent_state in C; subst s0.
  - destruct (fs_lookup p s) as [[|c0]|] eqn:L; intros H Hq; injection H as _ <-; [exact Hq| |];
      rewrite fs_lookup_put; destruct (String.eqb_spec q p) as [->|]; congruence.
  - intros H Hq. injection H as _ <-. exact Hq.
Qed.

Lemma write_file_frames p c : frames (fun q => q = p) (write_file p c).
Proof.
  intros s r s' q H Hq.
  destruct (write_file_state _ _ _ _ _ H) as [[_ ->]|[e [_ ->]]]; [|reflexivity].
  rewrite fs_lookup_put. destruct (String.eqb_spec q p); [contradiction|reflexivity].
Qed.

Lemma os_mkdir_keeps_dirs p : keeps_dirs (os_mkdir p).
Proof.
  intros s r s' q. unfold os_mkdir, fbind. destruct (fs_lookup p s) as [n|] eqn:L.
  - intros H Hq. injection H as _ <-. exact Hq.
  - destruct (check_parent p s) as [[[]|e] s0] eqn:C; apply check_parent_state in C; subst s0;
      intros H Hq; injection H as _ <-; [|exact Hq].
    rewrite fs_lookup_put. destruct (String.eqb_spec q p) as [->|]; congruence.
Qed.

Lemma os_mkdir_frames p : frames (fun q => q = p) (os_mkdir p).
Proof.
  intros s r s' q. unfold os_mkdir, fbind. destruct (fs_lookup p s) as [n|] eqn:L.
  - intros H _. injection H as _ <-. reflexivity.
  - destruct (check_parent p s) as [[[]|e] s0] eqn:C; apply check_parent_state in C; subst s0;
      intros H Hq; injection H as _ <-; [|reflexivity].
    rewrite fs_lookup_put. destruct (String.eqb_spec q p); [contradiction|reflexivity].
Qed.

Lemma makedirs_rec_props name ups :
  keeps_dirs (makedirs_rec name ups) /\
  frames (fun q => q = name \/ In q ups) (makedirs_rec name ups).
Proof.
  revert name. induction ups as [|head ups' IH]; intros name; cbn [makedirs_rec].
  - split; [apply os_mkdir_keeps_dirs|].
    exact (frames_weaken _ _ _ (fun q Hq => or_introl Hq) (os_mkdir_frames name)).
  - destruct (IH head) as [K F].
    set (h := fun e : exn => match e with FileExistsError _ => ret tt | _ => throw e end).
    assert (Hh : forall e s0, snd (h e s0) = s0) by (intros e s0; destruct e; reflexivity).
    assert (TK : keeps_dirs (try_except (makedirs_rec head ups') h)).
    { apply keeps_dirs_try; [exact K|]. intros e. apply keeps_dirs_pure, Hh. }
    assert (TF : frames (fun q => q = name \/ In q (head :: ups')) (try_except (makedirs_rec head ups') h)).
    { apply frames_try.
      - refine (frames_weaken _ _ _ _ F). intros q [E|I]; right; [left; now symmetry|now right].
      - intros e. apply frames_pure, Hh. }
    split.
    + apply keeps_dirs_bind; [|intros _; apply os_mkdir_keeps_dirs].
      intros s r s' q. cbv beta. destruct (fs_lookup head s).
      * intros H Hq. injection H as _ <-. exact Hq.
      * exact (TK s r s' q).
    + apply frames_bind.
      * intros s r s' q. cbv beta. destruct (fs_lookup head s).
        -- intros H _. injection H as _ <-. reflexivity.
        -- exact (TF s r s' q).
      * intros _. exact (frames_weaken _ _ _ (fun q Hq => or_introl Hq) (os_mkdir_frames name)).
Qed.

Lemma last_slash_split p d : last_slash p = Some d -> exists v, p = d ++ String "/" v.
Proof.
  revert d. induction p as [|c r IH]; intros d H; simpl in H; [discriminate|].
  destruct (last_slash r) as [d0|] eqn:L.
  - injection H as <-. destruct (IH d0 eq_refl) as [v ->]. exists v. reflexivity.
  - destruct (Ascii.eqb_spec c "/"%char) as [->|]; [|discriminate].
    injection H as <-. exists r. reflexivity.
Qed.

Lemma last_slash_app x y : last_slash y = None -> last_slash (x ++ String "/" y) = Some x.
Proof. intros Hy. induction x as [|c x IH]; simpl; [now rewrite Hy|now rewrite IH]. Qed.

Lemma ancestors_from_split acc p a :
  In a (ancestors_from acc p) ->
  exists u v, p = u ++ String "/" v /\ a = acc ++ u.
Proof.
  revert acc. induction p as [|c r IH]; intros acc Hin; simpl in Hin; [contradiction|].
  assert (Hrec : In a (ancestors_from (acc ++ String c "") r) ->
                 exists u v, String c r = u ++ String "/" v /\ a = acc ++ u).
  { intros H. destruct (IH _ H) as (u & v & -> & ->).
    exists (String c u), v. split; [reflexivity|]. now rewrite str_app_assoc. }
  destruct (Ascii.eqb_spec c "/"%char) as [->|_].
  - destruct Hin as [<-|Hin]; [|exact (Hrec Hin)].
    exists "", r. split; [reflexivity|]. symmetry. apply str_app_nil_r.
  - exact (Hrec Hin).
Qed.

Lemma ancestors_split a p : In a (ancestors p) -> exists v, p = a ++ String "/" v.
Proof. intros H. destruct (ancestors_from_split _ _ _ H) as (u & v & -> & ->). now exists v. Qed.

(** [os.makedirs] of the parent of [t] only makes directories on the way to [t]. *)
Lemma upperdirs_on_path t q :
  parent t <> "" -> q = parent t \/ In q (rev (ancestors (parent t))) -> on_path q t.
Proof.
  intros Hp Hq. unfold parent in *.
  destruct (last_slash t) as [d|] eqn:L; [|contradiction].
  destruct (last_slash_split _ _ L) as [w ->]. right.
  destruct Hq as [->|Hin]; [now exists w|].
  apply in_rev in Hin. destruct (ancestors_split _ _ Hin) as [v ->].
  exists (v ++ String "/" w). rewrite str_app_assoc. reflexivity.
Qed.

Lemma extract_member_props dir m :
  keeps_dirs (extract_member dir m) /\
  frames (fun q => on_path q (extract_target dir (fst m))) (extract_member dir m).
Proof.
  destruct m as [name c]. unfold extract_member. cbv beta iota zeta. cbn [fst].
  set (t := extract_target dir name).
  destruct (makedirs_rec_props (parent t) (rev (ancestors (parent t)))) as [K F].
  assert (Ht : forall q, q = t -> on_path q t) by (intros q ->; now left).
  split; [apply keeps_dirs_bind|apply frames_bind].
  - intros s r s' q. cbv beta.
    destruct (String.eqb (parent t) ""); [intros H Hq; injection H as _ <-; exact Hq|].
    destruct (fs_lookup (parent t) s); [intros H Hq; injection H as _ <-; exact Hq|].
    exact (K s r s' q).
  - intros _ s r s' q. cbv beta. destruct (ends_with "/" name).
    + destruct (is_dir t s); [intros H Hq; injection H as _ <-; exact Hq|].
      exact (os_mkdir_keeps_dirs t s r s' q).
    + exact (write_file_keeps_dirs t c s r s' q).
  - intros s r s' q. cbv beta.
    destruct (String.eqb_spec (parent t) "") as [_|Hne]; [intros H _; injection H as _ <-; reflexivity|].
    destruct (fs_lookup (parent t) s); [intros H _; injection H as _ <-; reflexivity|].
    intros H Hq. apply (F _ _ _ _ H). intros Hin. exact (Hq (upperdirs_on_path t q Hne Hin)).
  - intros _ s r s' q. cbv beta. destruct (ends_with "/" name).
    + destruct (is_dir t s); [intros H _; injection H as _ <-; reflexivity|].
      exact (frames_weaken _ _ _ Ht (os_mkdir_frames t) s r s' q).
    + exact (frames_weaken _ _ _ Ht (write_file_frames t c) s r s' q).
Qed.

Lemma extractall_props dir ms :
  keeps_dirs (extractall dir ms) /\
  frames (fun q => exists m, In m ms /\ on_path q (extract_target dir (fst m)))
         (extractall dir ms).
Proof.
  induction ms as [|m r [K F]]; cbn [extractall].
  - split; [apply keeps_dirs_pure|apply frames_pure]; reflexivity.
  - destruct (extract_member_props dir m) as [MK MF]. split.
    + apply keeps_dirs_bind; auto.
    + apply frames_bind.
      * apply (frames_weaken _ _ _ (fun q Hq => ex_intro _ m (conj (or_introl eq_refl) Hq)) MF).
      * intros _. apply (frames_weaken _ _ _ (fun q Hq => match Hq with
                                                           | ex_intro _ m' (conj Hin Hp) =>
                                                               ex_intro _ m' (conj (or_intror Hin) Hp)
                                                           end) F).
Qed.

(** Both suffixes cannot hold at once. *)
Lemma ends_with_json_not_aivis p : ends_with ".json" p = true -> ends_with ".aivis" p = false.
Proof.
  intros H1. destruct (ends_with ".aivis" p) eqn:H2; [|reflexivity]. exfalso.
  unfold ends_with in H1, H2.
  apply andb_prop in H1 as [L1 E1]. apply andb_prop in H2 as [L2 E2].
  apply PeanoNat.Nat.leb_le in L1, L2. apply String.eqb_eq in E1, E2. simpl in L1, L2, E1, E2.
  pose proof (String.substring_correct1 p (String.length p - 5) 5 0 ltac:(repeat constructor)) as G1.
  pose proof (String.substring_correct1 p (String.length p - 6) 6 1 ltac:(repeat constructor)) as G2.
  rewrite E1 in G1. rewrite E2 in G2. simpl in G1, G2.
  replace (S (String.length p - 6)) with (String.length p - 5) in G2
    by (rewrite <- PeanoNat.Nat.sub_succ_l; [reflexivity|assumption]).
  rewrite <- G1 in G2. discriminate G2.
Qed.

(** *** [_load_aivis_model] *)



(** The handler always re-raises: a successful load is a successful body. *)
Lemma try_cleanup_ok model_path s d s' :
  try_except (load_aivis_body model_path) (fun e => _ <~ rmtree temp_dir ;; throw e) s = (Ok d, s') ->
  load_aivis_body model_path s = (Ok d, s').
Proof.
  unfold try_except. destruct (load_aivis_body model_path s) as [[a|e] s1]; [auto|].
  unfold fbind. rewrite rmtree_ok. unfold throw. discriminate.
Qed.

Lemma load_aivis_body_ok model_path s d s' :
  load_aivis_body model_path s = (Ok d, s') ->
  exists ms config, fs_lookup model_path s = Some (NFile (CZip ms)) /\
    extractall temp_dir ms s = (Ok tt, s') /\
    fs_lookup staging_config s' = Some (NFile (CJson config)) /\
    d = JObj [("type", JStr "aivis"); ("config", config); ("temp_dir", JStr temp_dir)].
Proof.
  unfold load_aivis_body, fbind, zip_open_read, fbind, read_file.
  destruct (fs_lookup model_path s) as [[|[j|ms|raw]]|]; try discriminate.
  unfold ret.
  destruct (extractall temp_dir ms s) as [[[]|e] s3] eqn:X; [|discriminate].
  change (path_join temp_dir "config.json") with staging_config.
  unfold path_exists.
  destruct (fs_lookup staging_config s3) as [n|] eqn:Lc; cbn; [|discriminate].
  try rewrite Lc. cbn.
  destruct n as [|[j|zs|raw]]; cbn; try discriminate.
  intros B. injection B as E1 E2. subst s3. exists ms, j. auto.
Qed.

(** [mkdir(exist_ok=True)] of the staging directory. *)
Lemma mkdir_temp_dir s :
  mkdir_exist_ok temp_dir s =
  match fs_lookup temp_dir s with
  | Some NDir => (Ok tt, s)
  | Some (NFile _) => (Exc (FileExistsError temp_dir), s)
  | None => (Ok tt, fs_put temp_dir NDir s)
  end.
Proof. unfold mkdir_exist_ok. destruct (fs_lookup temp_dir s) as [[|]|]; reflexivity. Qed.

(** C7. A path with neither the ".aivis" nor the ".json" suffix is refused
    with [ValueError] before anything is touched: the file system is the
    same afterwards. *)
Theorem load_unsupported_format model_path s :
  ends_with ".aivis" model_path = false -> ends_with ".json" model_path = false ->
  load_model model_path s = (Exc unsupported_format, s).
Proof. intros H1 H2. unfold load_model. now rewrite H1, H2. Qed.

Lemma load_unsupported_format_witness :
  ends_with ".aivis" "voice.zip" = false /\ ends_with ".json" "voice.zip" = false /\
  load_model "voice.zip" [] = (Exc unsupported_format, []).
Proof.
  assert (H1 : ends_with ".aivis" "voice.zip" = false) by reflexivity.
  assert (H2 : ends_with ".json" "voice.zip" = false) by reflexivity.
  split; [exact H1|]. split; [exact H2|]. exact (load_unsupported_format _ _ H1 H2).
Defined.









(** C5 (code_bug). When writing the output archive fails, [_save_aivis_model]
    raises before its [shutil.rmtree]: the staging directory, with the merged
    [config.json], is still there after the error. *)
Theorem save_failure_keeps_staging :
  match load_model "a.aivis" two_archives_fs with
  | (Ok doc, s1) =>
      match add_styles_to_model doc with
      | Ok doc' =>
          let '(r, s2) := save_model doc' "missing_dir/a_styled.aivis" s1 in
          r = Exc (FileNotFoundError "missing_dir/a_styled.aivis") /\
          fs_lookup temp_dir s2 = Some NDir /\ fs_lookup staging_config s2 <> None
      | Exc _ => False
      end
  | (Exc _, _) => False
  end.
Proof.
  vm_compute. split; [reflexivity|]. split; [reflexivity|intros Hc; discriminate Hc].
Qed.

(** *** [_save_aivis_model] *)

Lemma norm_path_nonempty p : norm_path p <> "".
Proof.
  unfold norm_path. destruct (is_prefix "/" p); [discriminate|].
  destruct (filter _ (split_sep p)) as [|x xs] eqn:E; [discriminate|].
  assert (Hx : In x (x :: xs)) by now left. rewrite <- E in Hx. apply filter_In in Hx as [_ Hx].
  destruct x as [|a x']; [discriminate Hx|].
  destruct xs; discriminate.
Qed.

Lemma is_dir_keeps {A} (m : FS A) p s r s' :
  keeps_dirs m -> m s = (r, s') -> is_dir p s = true -> is_dir p s' = true.
Proof.
  intros K H. unfold is_dir.
  destruct (String.eqb p "."), (String.eqb p "/"); simpl; try (intros; reflexivity).
  destruct (fs_lookup p s) as [[|]|] eqn:L; try discriminate.
  intros _. now rewrite (K _ _ _ _ H L).
Qed.

Lemma write_file_ok_parent p c s s' :
  write_file p c s = (Ok tt, s') -> check_parent p s = (Ok tt, s).
Proof.
  unfold write_file, fbind.
  destruct (check_parent p s) as [[[]|e] s0] eqn:C; pose proof (check_parent_state _ _ _ _ C);
    subst s0; [reflexivity|discriminate].
Qed.

Lemma fbind_ok {A B} (m : FS A) (k : A -> FS B) s b s' :
  fbind m k s = (Ok b, s') -> exists a s1, m s = (Ok a, s1) /\ k a s1 = (Ok b, s').
Proof. unfold fbind. destruct (m s) as [[a|e] s1]; [eauto|discriminate]. Qed.

Lemma lift_ok {A} (o : outcome A) s a s' : lift o s = (Ok a, s') -> o = Ok a /\ s' = s.
Proof. unfold lift. intros H; injection H as E1 E2. subst. auto. Qed.

(** Writing [P / "config.json"] needs the directory [P]. *)
Lemma write_join_is_dir P c s s' :
  P <> "" -> write_file (path_join P "config.json") c s = (Ok tt, s') -> is_dir P s = true.
Proof.
  intros Hne H. apply write_file_ok_parent in H. unfold is_dir.
  destruct (String.eqb_spec P ".") as [->|N1]; [reflexivity|].
  destruct (String.eqb_spec P "/") as [->|N2]; [reflexivity|]. simpl.
  assert (J : path_join P "config.json" = P ++ String "/" "config.json").
  { unfold path_join, dir_prefix. apply String.eqb_neq in N1, N2. rewrite N1, N2.
    apply str_app_assoc. }
  rewrite J in H. unfold check_parent, parent in H.
  rewrite last_slash_app in H by reflexivity. cbv zeta in H.
  apply String.eqb_neq in Hne. rewrite Hne in H.
  destruct (fs_lookup P s) as [[|c0]|]; [reflexivity|discriminate H|discriminate H].
Qed.


Lemma save_aivis_ok d out s s' tmp :
  py_getitem d "temp_dir" = Ok (JStr tmp) -> _save_aivis_model d out s = (Ok tt, s') ->
  exists c sC sD, py_getitem d "config" = Ok c /\
    sC = fs_put out (NFile (CRaw ""))
           (fs_put (path_join (norm_path tmp) "config.json") (NFile (CJson c))
              (fs_put (path_join (norm_path tmp) "config.json") (NFile (CRaw "")) s)) /\
    sD = fs_put out (NFile (CZip (rglob_files (norm_path tmp) sC))) sC /\
    is_dir (norm_path tmp) sC = true /\ is_dir (norm_path tmp) sD = true /\
    s' = snd (rmtree (norm_path tmp) sD).
Proof.
  intros T H. unfold _save_aivis_model in H.
  apply fbind_ok in H as (td & s0 & H0 & H). apply lift_ok in H0 as [E0 ->].
  rewrite T in E0. injection E0 as <-. cbv beta in H.
  apply fbind_ok in H as (P & s0 & H0 & H). apply lift_ok in H0 as [E0 ->].
  cbv beta iota delta [as_path] in E0. injection E0 as <-. cbv beta zeta in H.
  apply fbind_ok in H as ([] & sA & WA & H). cbv beta in H.
  apply fbind_ok in H as (c & s0 & H0 & H). apply lift_ok in H0 as [Ec ->]. cbv beta in H.
  apply fbind_ok in H as ([] & sB & WB & H). cbv beta in H.
  apply fbind_ok in H as ([] & sC & WC & H). cbv beta in H.
  apply fbind_ok in H as ([] & sD & WD & H). cbv beta in H, WD.
  pose proof (write_join_is_dir _ _ _ _ (norm_path_nonempty tmp) WA) as D0.
  pose proof (is_dir_keeps _ _ _ _ _ (write_file_keeps_dirs _ _) WA D0) as DA.
  pose proof (is_dir_keeps _ _ _ _ _ (write_file_keeps_dirs _ _) WB DA) as DB.
  pose proof (is_dir_keeps _ _ _ _ _ (write_file_keeps_dirs _ _) WC DB) as DC.
  pose proof (is_dir_keeps _ _ _ _ _ (write_file_keeps_dirs _ _) WD DC) as DD.
  destruct (write_file_state _ _ _ _ _ WA) as [[_ EA]|[e [He _]]]; [|discriminate].
  destruct (write_file_state _ _ _ _ _ WB) as [[_ EB]|[e [He _]]]; [|discriminate].
  destruct (write_file_state _ _ _ _ _ WC) as [[_ EC]|[e [He _]]]; [|discriminate].
  destruct (write_file_state _ _ _ _ _ WD) as [[_ ED]|[e [He _]]]; [|discriminate].
  exists c, sC, sD. subst sA sB. split; [exact Ec|]. split; [exact EC|].
  split; [exact ED|]. split; [exact DC|]. split; [exact DD|].
  rewrite rmtree_ok in H. injection H as E. now symmetry.
Qed.

Lemma save_aivis_output d out s s2 :
  _save_aivis_model d out s = (Ok tt, s2) ->
  fs_lookup out s2 = None \/ exists ms, fs_lookup out s2 = Some (NFile (CZip ms)).
Proof.
  intros H. pose proof H as H'. unfold _save_aivis_model in H'.
  apply fbind_ok in H' as (td & s0 & H0 & H1). apply lift_ok in H0 as [T _].
  destruct td as [| | | |tmp| |];
    try (cbv beta in H1; apply fbind_ok in H1 as (P & s1 & H2 & _); apply lift_ok in H2 as [E _];
         cbv beta iota delta [as_path] in E; discriminate E).
  destruct (save_aivis_ok _ _ _ _ _ T H) as (c & sC & sD & _ & _ & ED & _ & _ & E).
  subst s2. rewrite fs_lookup_rmtree. destruct (_ && _); [now left|right].
  subst sD. rewrite fs_lookup_put, String.eqb_refl. eauto.
Qed.

(** C4 (as amended). Loading a plain JSON file, merging, saving to a ".json"
    path and loading that file again gives, whenever it completes, a
    configuration that maps every key other than "styles" and "speakers" to
    its original value, and whose styles dict maps each identifier of the
    specification's catalog to an entry with exactly the tabulated parameters,
    other identifiers keeping the entries they had before. *)
Theorem roundtrip_frame input_file output_file s0 d'' s3 :
  ends_with ".json" input_file = true -> ends_with ".json" output_file = true ->
  roundtrip input_file output_file s0 = (Ok d'', s3) ->
  exists kv kv'' st'', fst (load_model input_file s0) = Ok (JObj kv) /\ d'' = JObj kv'' /\
    (forall k, k <> "styles" -> k <> "speakers" -> lookup k kv'' = lookup k kv) /\
    styles_of d'' = Some st'' /\
    (forall id name params, In (id, name, params) spec_catalog ->
       exists nm, lookup id st'' = Some (JObj [("name", JStr nm); ("parameters", params)])) /\
    (forall k, ~ In k catalog_ids -> lookup k st'' = style_of (JObj kv) k).
Proof.
  intros Hi Ho H. unfold roundtrip, process_file, fbind in H.
  destruct (load_model input_file s0) as [[d|e] s1] eqn:L; cbv beta iota zeta in H; [|discriminate].
  unfold lift in H. cbv beta iota zeta in H.
  destruct (add_styles_to_model d) as [d'|e] eqn:A; cbv beta iota zeta in H; [|discriminate].
  destruct (save_model d' output_file s1) as [[[]|e] s2] eqn:S; cbv beta iota zeta in H; [|discriminate].
  destruct (add_styles_inv _ _ A) as (c & c' & Sd & M & Sd' & Aeq).
  unfold load_model in H. rewrite (ends_with_json_not_aivis _ Ho), Ho in H.
  unfold fbind, read_file in H.
  unfold save_model, fbind, lift in S. cbv beta iota zeta in S.
  destruct (is_aivis d') as [[|]|] eqn:Ad'; cbv beta iota zeta in S; [| |discriminate].
  - destruct (save_aivis_output _ _ _ _ S) as [N|[ms N]]; rewrite N in H; discriminate H.
  - destruct (write_file_state _ _ _ _ _ S) as [[_ ->]|[e [He _]]]; [|discriminate].
    rewrite fs_lookup_put, String.eqb_refl in H. cbn in H. injection H as <- _.
    unfold select_config in Sd, Sd'. rewrite Ad' in Sd'. rewrite <- Aeq in Sd.
    cbn in Sd, Sd'. injection Sd as <-. injection Sd' as <-.
    destruct (merge_config_is_obj _ _ M) as [kv ->].
    destruct (merge_config_shape _ _ M) as (st & kv' & _ & -> & _ & Hf & _).
    destruct (add_styles_table _ _ A) as (st'' & Hs & Hin & Hout).
    exists kv, kv', st''. repeat split; auto.
    exact (catalog_rows _ Hin).
Qed.

Lemma roundtrip_frame_witness :
  exists d'' s3, roundtrip "model.json" "model_styled.json" (rt_fs ex_doc) = (Ok d'', s3) /\
  exists kv kv'' st'', fst (load_model "model.json" (rt_fs ex_doc)) = Ok (JObj kv) /\ d'' = JObj kv'' /\
    (forall k, k <> "styles" -> k <> "speakers" -> lookup k kv'' = lookup k kv) /\
    styles_of d'' = Some st'' /\
    (forall id name params, In (id, name, params) spec_catalog ->
       exists nm, lookup id st'' = Some (JObj [("name", JStr nm); ("parameters", params)])) /\
    (forall k, ~ In k catalog_ids -> lookup k st'' = style_of (JObj kv) k).
Proof.
  destruct (roundtrip "model.json" "model_styled.json" (rt_fs ex_doc)) as [[d''|e] s3] eqn:R.
  - exists d'', s3. split; [reflexivity|].
    exact (roundtrip_frame "model.json" "model_styled.json" _ _ _ eq_refl eq_refl R).
  - vm_compute in R. discriminate R.
Defined.

(** C4 fails as stated: a style the input already had under another
    identifier is still in the styles dict of the reloaded file. *)
Lemma roundtrip_keeps_other_styles :
  match roundtrip "model.json" "model_styled.json" (rt_fs ex_custom_doc) with
  | (Ok d'', _) => exists st, styles_of d'' = Some st /\ map fst st <> catalog_ids /\
                              lookup "custom" st = Some JNull
  | (Exc _, _) => False
  end.
Proof.
  vm_compute. eexists. split; [reflexivity|]. split; [intros Hc; discriminate Hc|reflexivity].
Qed.

(** ** Output names, the batch loop, the window and the file paths *)

Lemma rfind_app c x y :
  rfind c (x ++ y) =
  match rfind c y with Some i => Some (String.length x + i) | None => rfind c x end.
Proof.
  induction x as [|a x IH]; simpl.
  - destruct (rfind c y); reflexivity.
  - rewrite IH. destruct (rfind c y); reflexivity.
Qed.

Lemma rfind_app_none c x y :
  rfind c (x ++ y) = None <-> rfind c x = None /\ rfind c y = None.
Proof.
  rewrite rfind_app. destruct (rfind c y); split; intros H;
    try discriminate; try (destruct H; discriminate); auto; apply H.
Qed.

Lemma rfind_some c p i :
  rfind c p = Some i ->
  exists x y, p = x ++ String c y /\ String.length x = i /\ rfind c y = None.
Proof.
  revert i. induction p as [|a r IH]; intros i H; simpl in H; [discriminate|].
  destruct (rfind c r) as [j|] eqn:E.
  - injection H as <-. destruct (IH j eq_refl) as (x & y & -> & <- & Hy).
    exists (String a x), y. auto.
  - destruct (Ascii.eqb_spec a c) as [->|]; [|discriminate]. injection H as <-.
    exists "", r. auto.
Qed.

Lemma rfind_lt c p i : rfind c p = Some i -> i < String.length p.
Proof.
  intros H. destruct (rfind_some _ _ _ H) as (x & y & -> & <- & _).
  rewrite str_length_app. simpl. lia.
Qed.

Lemma rfind_head c r : rfind c (String c r) <> None.
Proof. simpl. destruct (rfind c r); [discriminate|]. now rewrite Ascii.eqb_refl. Qed.

Lemma drop_prefix_app x y : drop_prefix (String.length x) (x ++ y) = y.
Proof. induction x as [|a x IH]; simpl; [destruct y; reflexivity|exact IH]. Qed.

Lemma drop_prefix_after x c y : drop_prefix (S (String.length x)) (x ++ String c y) = y.
Proof. induction x as [|a x IH]; simpl; [reflexivity|exact IH]. Qed.

Lemma substring_full s : String.substring 0 (String.length s) s = s.
Proof. induction s as [|a s IH]; simpl; [reflexivity|now rewrite IH]. Qed.

Lemma substring_app_l x y : String.substring 0 (String.length x) (x ++ y) = x.
Proof. induction x as [|a x IH]; simpl; [now destruct y|now rewrite IH]. Qed.

Lemma substring_app_r w m t : String.substring (String.length w) m (w ++ t) = String.substring 0 m t.
Proof. induction w as [|a w IH]; simpl; [reflexivity|exact IH]. Qed.

Lemma substring_split s k :
  k <= String.length s ->
  String.substring 0 k s ++ String.substring k (String.length s - k) s = s.
Proof.
  revert k. induction s as [|a s IH]; intros k Hk; simpl in *.
  - destruct k; reflexivity.
  - destruct k as [|k]; simpl.
    + now rewrite substring_full.
    + rewrite IH by lia. reflexivity.
Qed.

Lemma ends_with_spec suf s : ends_with suf s = true <-> exists q, s = q ++ suf.
Proof.
  unfold ends_with. split.
  - intros H. apply andb_prop in H as [L E]. apply PeanoNat.Nat.leb_le in L.
    apply String.eqb_eq in E.
    exists (String.substring 0 (String.length s - String.length suf) s).
    pose proof (substring_split s (String.length s - String.length suf) ltac:(lia)) as Sp.
    replace (String.length s - (String.length s - String.length suf)) with (String.length suf)
      in Sp by lia.
    rewrite E in Sp. exact (eq_sym Sp).
  - intros [q ->]. rewrite str_length_app.
    replace (String.length q + String.length suf - String.length suf) with (String.length q) by lia.
    rewrite substring_app_r, substring_full, String.eqb_refl, andb_true_r.
    apply PeanoNat.Nat.leb_le. lia.
Qed.

Lemma str_app_len_inv a b c d :
  a ++ b = c ++ d -> String.length a = String.length c -> a = c /\ b = d.
Proof.
  revert c. induction a as [|x a IH]; intros c H L; destruct c as [|y c]; simpl in *;
    try discriminate; auto.
  injection H as -> H. injection L as L. destruct (IH _ H L) as [-> ->]. auto.
Qed.

Lemma skip_leading_dots_app w x r :
  skip_leading_dots (String.length x) (String.length w) (w ++ x ++ r) = negb (all_dots x).
Proof.
  revert w. induction x as [|a x IH]; intros w; [reflexivity|].
  cbn [String.length skip_leading_dots].
  assert (Hs : String.substring (String.length w) 1 (w ++ (String a x ++ r)) = String a "").
  { rewrite substring_app_r. simpl. now destruct (x ++ r). }
  rewrite Hs. cbn [all_dots].
  destruct (Ascii.eqb_spec a "."%char) as [->|Ha].
  - change (String.eqb (String "." "") ".") with true. simpl.
    specialize (IH (w ++ ".")). rewrite str_length_app in IH. simpl in IH.
    rewrite PeanoNat.Nat.add_1_r in IH. rewrite <- IH. f_equal.
    rewrite str_app_assoc. reflexivity.
  - replace (String.eqb (String a "") ".") with false.
    + reflexivity.
    + symmetry. apply String.eqb_neq. intros H; injection H as H. contradiction.
Qed.

Lemma splitext_nodot b :
  rfind "/" b = None -> rfind "." b = None -> os_path_splitext b = (b, "").
Proof. intros _ H. unfold os_path_splitext. now rewrite H. Qed.

Lemma splitext_dot x y :
  rfind "/" (x ++ String "." y) = None -> rfind "." y = None ->
  os_path_splitext (x ++ String "." y) =
  if all_dots x then (x ++ String "." y, "") else (x, String "." y).
Proof.
  intros Hs Hy. unfold os_path_splitext. rewrite Hs.
  rewrite rfind_app. cbn [rfind]. rewrite Hy, Ascii.eqb_refl.
  rewrite PeanoNat.Nat.add_0_r. cbn [after]. simpl Nat.ltb. cbv iota.
  rewrite PeanoNat.Nat.sub_0_r.
  pose proof (skip_leading_dots_app "" x (String "." y)) as K. simpl in K.
  rewrite K. destruct (all_dots x); simpl; [reflexivity|].
  rewrite substring_app_l, drop_prefix_app. reflexivity.
Qed.

Lemma basename_split p : exists pre, p = pre ++ os_path_basename p /\ rfind "/" (os_path_basename p) = None.
Proof.
  unfold os_path_basename. destruct (rfind "/" p) as [i|] eqn:E; cbn [after].
  - destruct (rfind_some _ _ _ E) as (x & y & -> & <- & Hy).
    rewrite drop_prefix_after. exists (x ++ "/"). split; [|exact Hy].
    now rewrite str_app_assoc.
  - exists "". split; [destruct p; reflexivity|]. destruct p; exact E.
Qed.

Lemma basename_join od b : rfind "/" b = None -> os_path_basename (os_path_join od b) = b.
Proof.
  intros Hb. unfold os_path_join.
  assert (Hp : is_prefix "/" b = false).
  { destruct b as [|a r]; [reflexivity|]. cbn [is_prefix].
    destruct (Ascii.eqb_spec "/"%char a) as [<-|]; [|reflexivity].
    exfalso; exact (rfind_head _ _ Hb). }
  rewrite Hp. unfold os_path_basename.
  destruct (String.eqb od "" || ends_with "/" od) eqn:E.
  - rewrite rfind_app, Hb. apply orb_prop in E as [E|E].
    + apply String.eqb_eq in E. subst od. reflexivity.
    + apply ends_with_spec in E as [q ->].
      assert (R : rfind "/" (q ++ "/") = Some (String.length q)).
      { rewrite rfind_app. simpl. now rewrite PeanoNat.Nat.add_0_r. }
      rewrite R. cbn [after]. rewrite str_app_assoc. apply drop_prefix_after.
  - assert (R : rfind "/" (od ++ "/" ++ b) = Some (String.length od)).
    { rewrite rfind_app. simpl. rewrite Hb. simpl. now rewrite PeanoNat.Nat.add_0_r. }
    rewrite R. cbn [after]. apply drop_prefix_after.
Qed.

Lemma all_dots_app a b : all_dots (a ++ b) = all_dots a && all_dots b.
Proof. induction a as [|x a IH]; simpl; [reflexivity|now rewrite IH, andb_assoc]. Qed.

(** The two shapes of the base name of an output file. *)
Lemma output_name_cases f :
  let b := os_path_basename f in
  (os_path_splitext b = (b, "") /\
   rfind "/" (b ++ "_styled") = None /\ os_path_splitext (b ++ "_styled") = (b ++ "_styled", "")) \/
  (exists x y, b = x ++ String "." y /\ rfind "." y = None /\ rfind "/" (x ++ String "." y) = None /\
     all_dots x = false /\ os_path_splitext b = (x, String "." y) /\
     rfind "/" ((x ++ "_styled") ++ String "." y) = None /\
     os_path_splitext ((x ++ "_styled") ++ String "." y) = (x ++ "_styled", String "." y)).
Proof.
  cbv zeta. destruct (basename_split f) as (pre & _ & Hs).
  set (b := os_path_basename f) in *.
  destruct (rfind "." b) as [d|] eqn:Hd.
  - destruct (rfind_some _ _ _ Hd) as (x & y & Eb & _ & Hy).
    rewrite Eb in Hs |- *.
    pose proof Hs as Hs'. apply rfind_app_none in Hs' as [Hx Hy'].
    assert (Hy2 : rfind "/" y = None).
    { simpl in Hy'. destruct (rfind "/" y); [discriminate|reflexivity]. }
    destruct (all_dots x) eqn:Ad.
    + left. rewrite (splitext_dot _ _ Hs Hy), Ad. split; [reflexivity|].
      assert (E : (x ++ String "." y) ++ "_styled" = x ++ String "." (y ++ "_styled")).
      { rewrite str_app_assoc. reflexivity. }
      rewrite E.
      assert (Hy3 : rfind "." (y ++ "_styled") = None) by (apply rfind_app_none; auto).
      assert (Hs3 : rfind "/" (x ++ String "." (y ++ "_styled")) = None).
      { apply rfind_app_none. split; [exact Hx|]. simpl. 
        assert (rfind "/" (y ++ "_styled") = None) as -> by (apply rfind_app_none; auto).
        reflexivity. }
      split; [exact Hs3|]. rewrite (splitext_dot _ _ Hs3 Hy3), Ad. reflexivity.
    + right. exists x, y.
      assert (Hs3 : rfind "/" ((x ++ "_styled") ++ String "." y) = None).
      { apply rfind_app_none. split; [apply rfind_app_none; auto|exact Hy']. }
      repeat split; auto.
      * rewrite (splitext_dot _ _ Hs Hy), Ad. reflexivity.
      * rewrite (splitext_dot _ _ Hs3 Hy), all_dots_app, Ad. reflexivity.
  - left. rewrite (splitext_nodot _ Hs Hd). split; [reflexivity|].
    assert (Hs3 : rfind "/" (b ++ "_styled") = None) by (apply rfind_app_none; auto).
    split; [exact Hs3|]. apply splitext_nodot; [exact Hs3|]. apply rfind_app_none; auto.
Qed.

Lemma ends_with_ext a y w :
  rfind "." y = None -> rfind "." w = None ->
  ends_with (String "." w) (a ++ String "." y) = String.eqb y w.
Proof.
  intros Hy Hw. destruct (String.eqb_spec y w) as [->|Hne].
  - apply ends_with_spec. eauto.
  - destruct (ends_with (String "." w) (a ++ String "." y)) eqn:E; [|reflexivity].
    exfalso. apply ends_with_spec in E as [q E].
    assert (R : forall u v, rfind "." v = None -> rfind "." (u ++ String "." v) = Some (String.length u)).
    { intros u v Hv. rewrite rfind_app. simpl. rewrite Hv. simpl. now rewrite PeanoNat.Nat.add_0_r. }
    pose proof (f_equal (rfind ".") E) as F. rewrite (R _ _ Hy), (R _ _ Hw) in F.
    injection F as F. destruct (str_app_len_inv _ _ _ _ E F) as [_ G].
    injection G as G. contradiction.
Qed.

Lemma ends_with_styled a w :
  rfind "." w = None -> String.length w < 7 ->
  ends_with (String "." w) (a ++ "_styled") = false.
Proof.
  intros Hw Lw. destruct (ends_with (String "." w) (a ++ "_styled")) eqn:E; [|reflexivity].
  exfalso. apply ends_with_spec in E as [q E].
  pose proof (f_equal String.length E) as L. rewrite !str_length_app in L. simpl in L.
  pose proof (f_equal (rfind ".") E) as F. rewrite !rfind_app in F. simpl in F.
  rewrite Hw in F. simpl in F. rewrite PeanoNat.Nat.add_0_r in F.
  apply rfind_lt in F. lia.
Qed.

(** The output file of [process_files] is named after the input's base
    name, with "_styled" put between the name and its extension (as
    [os.path.splitext] splits it); split again, the output name gives back
    the same extension. *)
Theorem output_file_name_keeps_ext od f stem ext :
  os_path_splitext (os_path_basename f) = (stem, ext) ->
  os_path_basename (output_file_name od f) = stem ++ "_styled" ++ ext /\
  os_path_splitext (stem ++ "_styled" ++ ext) = (stem ++ "_styled", ext).
Proof.
  intros H. unfold output_file_name. rewrite H. cbn [fst snd].
  destruct (output_name_cases f) as [(S & Hs & S')|(x & y & Eb & Hy & Hb & Ad & S & Hs & S')];
    rewrite S in H; injection H as <- <-.
  - change ("_styled" ++ "") with "_styled". rewrite (basename_join _ _ Hs). auto.
  - rewrite <- str_app_assoc, (basename_join _ _ Hs). auto.
Qed.

Lemma output_file_name_keeps_ext_witness :
  os_path_splitext (os_path_basename "in/voice.v2.aivis") = ("voice.v2", ".aivis") /\
  os_path_basename (output_file_name "out" "in/voice.v2.aivis") = "voice.v2" ++ "_styled" ++ ".aivis" /\
  os_path_splitext ("voice.v2" ++ "_styled" ++ ".aivis") = ("voice.v2" ++ "_styled", ".aivis").
Proof.
  assert (H : os_path_splitext (os_path_basename "in/voice.v2.aivis") = ("voice.v2", ".aivis"))
    by reflexivity.
  split; [exact H|]. exact (output_file_name_keeps_ext "out" _ _ _ H).
Defined.

(** When the input's base name has an extension, the output path ends in
    ".aivis" (or ".json") exactly when the input path does, so [load_model]
    picks the same branch for both. *)
Theorem output_file_name_dispatch od f stem ext :
  os_path_splitext (os_path_basename f) = (stem, ext) -> ext <> "" ->
  ends_with ".aivis" (output_file_name od f) = ends_with ".aivis" f /\
  ends_with ".json" (output_file_name od f) = ends_with ".json" f.
Proof.
  intros H Hne.
  destruct (output_name_cases f) as [(S & _ & _)|(x & y & Eb & Hy & Hb & Ad & S & Hs & S')];
    rewrite S in H; injection H as <- <-; [contradiction|].
  destruct (basename_split f) as (pre & Ef & _).
  destruct (basename_split (output_file_name od f)) as (pre' & Eo & _).
  assert (Bo : os_path_basename (output_file_name od f) = (x ++ "_styled") ++ String "." y).
  { unfold output_file_name. rewrite S. cbn [fst snd]. rewrite <- str_app_assoc.
    apply basename_join. exact Hs. }
  rewrite Bo, <- str_app_assoc in Eo. rewrite Eb, <- str_app_assoc in Ef.
  rewrite Eo, Ef. change ".aivis" with (String "." "aivis"). change ".json" with (String "." "json").
  rewrite !ends_with_ext by (reflexivity || exact Hy). auto.
Qed.

Lemma output_file_name_dispatch_witness :
  os_path_splitext (os_path_basename "in/model.json") = ("model", ".json") /\
  ends_with ".aivis" (output_file_name "out" "in/model.json") = ends_with ".aivis" "in/model.json" /\
  ends_with ".json" (output_file_name "out" "in/model.json") = ends_with ".json" "in/model.json".
Proof.
  assert (H : os_path_splitext (os_path_basename "in/model.json") = ("model", ".json"))
    by reflexivity.
  split; [exact H|]. refine (output_file_name_dispatch "out" _ _ _ H _). discriminate.
Defined.

(** When [os.path.splitext] finds no extension in the input's base name
    (as for a file named ".aivis"), the output name is the base name followed
    by "_styled", and loading the output is refused as an unsupported format. *)
Theorem output_without_ext_unloadable od f s :
  snd (os_path_splitext (os_path_basename f)) = "" ->
  os_path_basename (output_file_name od f) = os_path_basename f ++ "_styled" /\
  load_model (output_file_name od f) s = (Exc unsupported_format, s).
Proof.
  intros H.
  destruct (output_name_cases f) as [(S & Hs & _)|(x & y & Eb & Hy & Hb & Ad & S & Hs & S')];
    rewrite S in H; [|discriminate H].
  assert (Bo : os_path_basename (output_file_name od f) = os_path_basename f ++ "_styled").
  { unfold output_file_name. rewrite S. cbn [fst snd]. 
    change ("_styled" ++ "") with "_styled". apply basename_join. exact Hs. }
  split; [exact Bo|].
  destruct (basename_split (output_file_name od f)) as (pre' & Eo & _).
  rewrite Bo, <- str_app_assoc in Eo.
  unfold load_model. rewrite Eo. change ".aivis" with (String "." "aivis").
  change ".json" with (String "." "json").
  rewrite !ends_with_styled by (reflexivity || (simpl; lia)). reflexivity.
Qed.

Lemma output_without_ext_unloadable_witness :
  snd (os_path_splitext (os_path_basename "models/.aivis")) = "" /\
  os_path_basename (output_file_name "out" "models/.aivis") = os_path_basename "models/.aivis" ++ "_styled" /\
  load_model (output_file_name "out" "models/.aivis") [] = (Exc unsupported_format, []).
Proof.
  assert (H : snd (os_path_splitext (os_path_basename "models/.aivis")) = "") by reflexivity.
  split; [exact H|]. exact (output_without_ext_unloadable "out" _ [] H).
Defined.


Lemma process_files_from_events od total files : forall i sc ec s,
  exists pre sc' ec',
    fst (process_files_from od total i files sc ec s) = (pre ++ [ProcessComplete sc' ec'])%list /\
    sc' + ec' = sc + ec + length files /\
    ec' = ec + length (filter is_error_event pre) /\
    length (filter is_status_event pre) = length files /\
    existsb is_complete_event pre = false.
Proof.
  induction files as [|f r IH]; intros i sc ec s; simpl.
  - exists [], sc, ec. repeat split; simpl; lia.
  - destruct (process_file f (output_file_name od f) s) as [[u|e] s1].
    + destruct (IH (S i) (S sc) ec s1) as (pre & sc' & ec' & E & H1 & H2 & H3 & H4).
      destruct (process_files_from od total (S i) r (S sc) ec s1) as [evs s''].
      simpl in E. subst evs. exists (UpdateStatus (progress_text i total) :: pre), sc', ec'.
      simpl. repeat split; auto; lia.
    + destruct (IH (S i) sc (S ec) s1) as (pre & sc' & ec' & E & H1 & H2 & H3 & H4).
      destruct (process_files_from od total (S i) r sc (S ec) s1) as [evs s''].
      simpl in E. subst evs.
      exists (UpdateStatus (progress_text i total) :: ShowError (os_path_basename f) e :: pre), sc', ec'.
      simpl. repeat split; auto; lia.
Qed.

(** [process_files] posts one progress update per file, one error dialog
    per failed file, and a single completion call at the end whose success
    and error counts add up to the number of files, the error count being
    the number of error dialogs. *)
Theorem process_files_counts input_files output_dir s :
  exists pre success_count error_count,
    fst (process_files input_files output_dir s) =
      (pre ++ [ProcessComplete success_count error_count])%list /\
    success_count + error_count = length input_files /\
    error_count = length (filter is_error_event pre) /\
    length (filter is_status_event pre) = length input_files /\
    existsb is_complete_event pre = false.
Proof.
  destruct (process_files_from_events output_dir (length input_files) input_files 0 0 0 s)
    as (pre & sc & ec & H). exists pre, sc, ec. exact H.
Qed.

Lemma run_events_frame pre g :
  existsb is_complete_event pre = false ->
  let g' := fold_left run_event pre g in
  input_files g' = input_files g /\ output_dir g' = output_dir g /\
  file_listbox g' = file_listbox g /\ output_label g' = output_label g /\
  execute_btn g' = execute_btn g /\ progress_running g' = progress_running g /\
  dialogs g' = (dialogs g ++ error_dialogs pre)%list.
Proof.
  revert g. induction pre as [|ev r IH]; intros g H; simpl.
  - rewrite app_nil_r. repeat split.
  - simpl in H. apply orb_false_elim in H as [C H].
    destruct (IH (run_event g ev) H) as (H1 & H2 & H3 & H4 & H5 & H6 & H7).
    rewrite H1, H2, H3, H4, H5, H6, H7.
    destruct ev as [t|b e|sc ec]; simpl in C |- *; [| |discriminate]; repeat split.
    now rewrite <- app_assoc.
Qed.

Lemma run_event_files g ev :
  input_files (run_event g ev) = input_files g /\ file_listbox (run_event g ev) = file_listbox g.
Proof.
  destruct ev as [t|b e|sc ec]; simpl; auto.
  unfold process_complete. destruct (Nat.eqb ec 0); simpl; auto.
Qed.

Lemma run_events_files evs g :
  input_files (fold_left run_event evs g) = input_files g /\
  file_listbox (fold_left run_event evs g) = file_listbox g.
Proof.
  revert g. induction evs as [|ev r IH]; intros g; simpl; auto.
  destruct (IH (run_event g ev)) as [-> ->]. apply run_event_files.
Qed.

Lemma step_listbox a st :
  file_listbox (fst st) = map os_path_basename (input_files (fst st)) ->
  file_listbox (fst (step a st)) = map os_path_basename (input_files (fst (step a st))).
Proof.
  destruct st as [g s]; simpl. intros H. destruct a as [files| |d|]; simpl.
  - destruct files; simpl; auto.
  - reflexivity.
  - unfold select_output_dir. destruct (String.eqb d ""); simpl; auto.
  - unfold run_execute, execute_process.
    destruct (input_files g) as [|f r] eqn:E; simpl.
    + rewrite E; exact H.
    + destruct (String.eqb (output_dir g) ""); simpl; [rewrite E; exact H|].
      destruct (process_files (f :: r) (output_dir g) s) as [evs s'].
      simpl. destruct (run_events_files evs
        (mk_gui (f :: r) (output_dir g) (file_listbox g) (status_label g) (output_label g)
           "disabled" true (dialogs g))) as [-> ->]. simpl. exact H.
Qed.

(** After any sequence of the window's actions, the list box shows the base
    names of the selected files, in selection order. *)
Theorem listbox_mirrors_input_files acts s :
  file_listbox (fst (run_actions acts s)) = map os_path_basename (input_files (fst (run_actions acts s))).
Proof.
  unfold run_actions.
  assert (G : forall st, file_listbox (fst st) = map os_path_basename (input_files (fst st)) ->
     let st' := fold_left (fun st a => step a st) acts st in
     file_listbox (fst st') = map os_path_basename (input_files (fst st'))).
  { induction acts as [|a r IH]; intros st H; simpl; [exact H|]. apply IH. now apply step_listbox. }
  apply G. reflexivity.
Qed.

Lemma error_dialogs_length pre : length (error_dialogs pre) = length (filter is_error_event pre).
Proof. induction pre as [|[t|b e|sc ec] r IH]; simpl; auto. Qed.

(** With files selected and an output folder chosen, a run ends with the
    execute button enabled again, the progress bar stopped and the status
    "処理完了"; its dialogs are one error box per failed file followed by one
    completion box, an information box if no file failed and a warning box
    otherwise. *)
Theorem run_execute_completes g s :
  input_files g <> [] -> output_dir g <> "" ->
  exists pre sc ec final,
    fst (process_files (input_files g) (output_dir g) s) = (pre ++ [ProcessComplete sc ec])%list /\
    sc + ec = length (input_files g) /\ length (error_dialogs pre) = ec /\
    (ec = 0 -> exists m, final = Info "完了" m) /\
    (ec <> 0 -> exists m, final = Warning "完了" m) /\
    let '(g', s') := run_execute g s in
    s' = snd (process_files (input_files g) (output_dir g) s) /\
    dialogs g' = (dialogs g ++ error_dialogs pre ++ [final])%list /\
    status_label g' = "処理完了" /\ execute_btn g' = "normal" /\ progress_running g' = false /\
    input_files g' = input_files g /\ output_dir g' = output_dir g /\
    file_listbox g' = file_listbox g.
Proof.
  intros Hf Hd. unfold run_execute, execute_process.
  destruct (input_files g) as [|f r] eqn:E; [contradiction|].
  destruct (String.eqb_spec (output_dir g) "") as [|_]; [contradiction|]. cbn iota beta.
  cbn [input_files output_dir].
  destruct (process_files_from_events (output_dir g) (length (f :: r)) (f :: r) 0 0 0 s)
    as (pre & sc & ec & Ev & H1 & H2 & _ & H4).
  change (process_files_from (output_dir g) (length (f :: r)) 0 (f :: r) 0 0 s)
    with (process_files (f :: r) (output_dir g) s) in Ev.
  destruct (process_files (f :: r) (output_dir g) s) as [evs s'] eqn:P. simpl in Ev. subst evs.
  set (g1 := mk_gui (f :: r) (output_dir g) (file_listbox g) (status_label g) (output_label g)
                    "disabled" true (dialogs g)).
  destruct (run_events_frame pre g1 H4) as (F1 & F2 & F3 & F4 & F5 & F6 & F7).
  set (g2 := fold_left run_event pre g1) in *.
  exists pre, sc, ec, (if Nat.eqb ec 0
    then Info "完了" ("すべてのファイルの処理が完了しました！" ++ nl ++ "成功: " ++ str_nat sc ++ "個")
    else Warning "完了" ("処理が完了しました。" ++ nl ++ "成功: " ++ str_nat sc ++ "個" ++ nl ++
                          "エラー: " ++ str_nat ec ++ "個")).
  rewrite error_dialogs_length.
  split; [reflexivity|]. split; [simpl in H1 |- *; lia|]. split; [lia|].
  split; [intros ->; simpl; eauto|].
  split; [intros Hn; apply PeanoNat.Nat.eqb_neq in Hn; rewrite Hn; eauto|].
  rewrite fold_left_app. simpl fold_left. fold g2.
  unfold process_complete. destruct (Nat.eqb ec 0); simpl;
    rewrite F1, F2, F3, F7; simpl; repeat split; rewrite <- ?app_assoc; reflexivity.
Qed.

Lemma run_execute_completes_witness :
  input_files (select_output_dir "out" (select_files ["in/a.json"] init_gui)) <> [] /\
  output_dir (select_output_dir "out" (select_files ["in/a.json"] init_gui)) <> "" /\
  exists pre sc ec final,
    fst (process_files ["in/a.json"] "out" (rt_fs ex_doc)) = (pre ++ [ProcessComplete sc ec])%list /\
    sc + ec = 1 /\ length (error_dialogs pre) = ec /\
    (ec = 0 -> exists m, final = Info "完了" m) /\
    (ec <> 0 -> exists m, final = Warning "完了" m) /\
    let '(g', s') := run_execute (select_output_dir "out" (select_files ["in/a.json"] init_gui)) (rt_fs ex_doc) in
    s' = snd (process_files ["in/a.json"] "out" (rt_fs ex_doc)) /\
    dialogs g' = (dialogs init_gui ++ error_dialogs pre ++ [final])%list /\
    status_label g' = "処理完了" /\ execute_btn g' = "normal" /\ progress_running g' = false /\
    input_files g' = ["in/a.json"] /\ output_dir g' = "out" /\
    file_listbox g' = ["a.json"].
Proof.
  assert (H1 : input_files (select_output_dir "out" (select_files ["in/a.json"] init_gui)) <> [])
    by discriminate.
  assert (H2 : output_dir (select_output_dir "out" (select_files ["in/a.json"] init_gui)) <> "")
    by discriminate.
  split; [exact H1|]. split; [exact H2|].
  exact (run_execute_completes _ (rt_fs ex_doc) H1 H2).
Defined.

Lemma update_speakers_err l e : update_speakers l = Exc e -> e = TypeError.
Proof.
  induction l as [|sp r IH]; simpl; [discriminate|].
  destruct (py_contains "styles" sp) as [b|e0] eqn:C; cbn [obind].
  - destruct (if b then Ok sp else py_setitem sp "styles" style_keys) as [sp'|e0] eqn:S; cbn [obind].
    + destruct (update_speakers r) as [r'|e1]; cbn [obind]; [discriminate|].
      intros H; injection H as <-. now apply IH.
    + intros H; injection H as <-. destruct b; [discriminate|].
      destruct sp; cbn in S; congruence.
  - intros H; injection H as <-. destruct sp; cbn in C; congruence.
Qed.

Lemma insert_styles_err items : forall config e,
  (forall kv, config = JObj kv -> has_key "styles" kv = true) ->
  insert_styles config items = Exc e -> e = TypeError.
Proof.
  induction items as [|[id nm] r IH]; intros config e Hk; simpl; [discriminate|].
  destruct config as [| | | | | |kv]; cbn [py_getitem obind]; try (intros H; injection H as <-; reflexivity).
  specialize (Hk kv eq_refl). unfold has_key in Hk.
  destruct (lookup "styles" kv) as [st|]; [|discriminate]. cbn [obind].
  destruct (py_setitem st id (style_entry id nm)) as [st'|e0] eqn:S; cbn [obind py_setitem].
  - apply IH. intros kv' H; injection H as <-. rewrite has_key_set. reflexivity.
  - intros H; injection H as <-. destruct st; cbn in S; congruence.
Qed.

Lemma add_speaker_styles_err c e : add_speaker_styles c = Exc e -> e = TypeError.
Proof.
  unfold add_speaker_styles.
  destruct (py_contains "speakers" c) as [b|e0] eqn:C; cbn [obind].
  - destruct b; [|discriminate].
    destruct c as [| | | | | |kv]; cbn [py_getitem obind]; try (intros H; injection H as <-; reflexivity).
    cbn in C. unfold has_key in C. destruct (lookup "speakers" kv) as [sp|]; [|discriminate].
    cbn [obind]. destruct (py_iter sp) as [l|e1] eqn:I; cbn [obind].
    + destruct (update_speakers l) as [l'|e2] eqn:U; cbn [obind].
      * destruct sp; discriminate.
      * intros H; injection H as <-. exact (update_speakers_err _ _ U).
    + intros H; injection H as <-. destruct sp; cbn in I; congruence.
  - intros H; injection H as <-. destruct c; cbn in C; congruence.
Qed.

Lemma merge_config_err c e : merge_config c = Exc e -> e = TypeError.
Proof.
  unfold merge_config.
  destruct (py_contains "styles" c) as [b|e0] eqn:C; cbn [obind].
  - destruct (if b then Ok c else py_setitem c "styles" (JObj [])) as [c1|e1] eqn:C1; cbn [obind].
    + destruct (insert_styles c1 styles) as [c2|e2] eqn:I; cbn [obind].
      * apply add_speaker_styles_err.
      * intros H; injection H as <-. refine (insert_styles_err _ _ _ _ I).
        intros kv Hc. subst c1.
        destruct b; [injection C1 as ->; cbn in C; congruence|].
        destruct c; cbn in C1; try discriminate. injection C1 as <-.
        rewrite has_key_set. reflexivity.
    + intros H; injection H as <-. destruct b; [discriminate|]. destruct c; cbn in C1; congruence.
  - intros H; injection H as <-. destruct c; cbn in C; congruence.
Qed.

(** [add_styles_to_model] fails only with [AttributeError] (the document is
    not a dict), with [KeyError('config')] (a document tagged "aivis"
    without "config") or with [TypeError] (a value of the wrong kind under
    "styles" or "speakers"). *)
Theorem add_styles_errors d e :
  add_styles_to_model d = Exc e ->
  ((forall kv, d <> JObj kv) /\ e = AttributeError) \/
  (is_aivis d = Ok true /\ e = KeyError "config") \/ e = TypeError.
Proof.
  unfold add_styles_to_model.
  destruct (is_aivis d) as [a|e0] eqn:A; cbn [obind].
  - destruct a.
    + destruct d as [| | | | | |kv]; try discriminate A. cbn [py_getitem].
      destruct (lookup "config" kv) as [c|]; cbn [obind].
      * destruct (merge_config c) as [c'|e0] eqn:M; cbn [obind py_setitem]; [discriminate|].
        intros H; injection H as <-. right; right. exact (merge_config_err _ _ M).
      * intros H; injection H as <-. right; left. auto.
    + intros M. right; right. exact (merge_config_err _ _ M).
  - intros H; injection H as <-. left.
    destruct d as [| | | | | |kv]; cbn in A; try discriminate A.
    all: injection A as <-; split; [intros kv Hc; discriminate Hc|reflexivity].
Qed.

Lemma add_styles_errors_witness :
  add_styles_to_model ex_tagged_doc = Exc (KeyError "config") /\
  (((forall kv, ex_tagged_doc <> JObj kv) /\ KeyError "config" = AttributeError) \/
   (is_aivis ex_tagged_doc = Ok true /\ KeyError "config" = KeyError "config") \/
   KeyError "config" = TypeError).
Proof.
  assert (H : add_styles_to_model ex_tagged_doc = Exc (KeyError "config")) by reflexivity.
  split; [exact H|]. exact (add_styles_errors _ _ H).
Defined.

(** A ".json" input whose top-level value is not an object fails with
    [AttributeError] in [add_styles_to_model], before anything is written. *)
Theorem process_file_non_object input_file output_file s c :
  ends_with ".json" input_file = true ->
  fs_lookup input_file s = Some (NFile (CJson c)) ->
  (forall kv, c <> JObj kv) ->
  process_file input_file output_file s = (Exc AttributeError, s).
Proof.
  intros Hj Hl Hc. unfold process_file, load_model.
  rewrite (ends_with_json_not_aivis _ Hj), Hj.
  unfold fbind, read_file, lift. rewrite Hl. cbn [json_decode].
  unfold add_styles_to_model.
  destruct c as [| | | | | |kv]; try reflexivity. exfalso; exact (Hc kv eq_refl).
Qed.

Lemma process_file_non_object_witness :
  ends_with ".json" "list.json" = true /\
  fs_lookup "list.json" [("list.json", NFile (CJson (JArr [])))] = Some (NFile (CJson (JArr []))) /\
  (forall kv, JArr [] <> JObj kv) /\
  process_file "list.json" "out/list_styled.json" [("list.json", NFile (CJson (JArr [])))] =
    (Exc AttributeError, [("list.json", NFile (CJson (JArr [])))]).
Proof.
  assert (H1 : ends_with ".json" "list.json" = true) by reflexivity.
  assert (H2 : fs_lookup "list.json" [("list.json", NFile (CJson (JArr [])))] =
               Some (NFile (CJson (JArr [])))) by reflexivity.
  assert (H3 : forall kv, JArr [] <> JObj kv) by (intros kv Hc; discriminate Hc).
  split; [exact H1|]. split; [exact H2|]. split; [exact H3|].
  exact (process_file_non_object _ "out/list_styled.json" _ _ H1 H2 H3).
Defined.

(** An existing "styles" value that is not a dict is not replaced: the
    merge fails with [TypeError]. *)
Theorem styles_not_dict d kv v :
  select_config d = Ok (JObj kv) -> lookup "styles" kv = Some v ->
  (forall st, v <> JObj st) ->
  add_styles_to_model d = Exc TypeError.
Proof.
  intros S L Hv.
  assert (M : merge_config (JObj kv) = Exc TypeError).
  { rewrite merge_config_obj. unfold styles_base. rewrite L.
    destruct v as [| | | | | |st]; try reflexivity. exfalso; exact (Hv st eq_refl). }
  unfold select_config in S. unfold add_styles_to_model.
  destruct (is_aivis d) as [[|]|]; cbn [obind] in S |- *; [| |discriminate].
  - rewrite S. cbn [obind]. now rewrite M.
  - injection S as ->. exact M.
Qed.

Lemma styles_not_dict_witness :
  select_config (JObj [("styles", JArr [])]) = Ok (JObj [("styles", JArr [])]) /\
  lookup "styles" [("styles", JArr [])] = Some (JArr []) /\
  (forall st, JArr [] <> JObj st) /\
  add_styles_to_model (JObj [("styles", JArr [])]) = Exc TypeError.
Proof.
  assert (H1 : select_config (JObj [("styles", JArr [])]) = Ok (JObj [("styles", JArr [])]))
    by reflexivity.
  assert (H2 : lookup "styles" [("styles", JArr [])] = Some (JArr [])) by reflexivity.
  assert (H3 : forall st, JArr [] <> JObj st) by (intros st Hc; discriminate Hc).
  split; [exact H1|]. split; [exact H2|]. split; [exact H3|].
  exact (styles_not_dict _ _ _ H1 H2 H3).
Defined.

Lemma set_keys k v kv :
  map fst (set k v kv) = if has_key k kv then map fst kv else (map fst kv ++ [k])%list.
Proof.
  unfold has_key. induction kv as [|[k' v'] r IH]; simpl; [reflexivity|].
  destruct (String.eqb k k'); simpl; [reflexivity|].
  rewrite IH. destruct (lookup k r); reflexivity.
Qed.

(** On a packaged document the merge changes only the value of "config":
    the keys stay in the same order and every other key, "temp_dir"
    included, keeps its value. *)
Theorem packaged_merge_frame d d' :
  is_aivis d = Ok true -> add_styles_to_model d = Ok d' ->
  exists kv kv', d = JObj kv /\ d' = JObj kv' /\ map fst kv' = map fst kv /\
    forall k, k <> "config" -> lookup k kv' = lookup k kv.
Proof.
  intros A. unfold add_styles_to_model. rewrite A. cbn [obind].
  destruct d as [| | | | | |kv]; try discriminate A. cbn [py_getitem].
  destruct (lookup "config" kv) as [c|] eqn:C; cbn [obind]; [|discriminate].
  destruct (merge_config c) as [c'|]; cbn [obind py_setitem]; [|discriminate].
  intros H; injection H as <-. exists kv, (set "config" c' kv). repeat split.
  - rewrite set_keys. now rewrite (lookup_has_key _ _ _ C).
  - intros k Hk. now apply lookup_set_neq.
Qed.

Lemma packaged_merge_frame_witness :
  let d := JObj [("type", JStr "aivis"); ("config", JObj []); ("temp_dir", JStr temp_dir)] in
  is_aivis d = Ok true /\
  exists d', add_styles_to_model d = Ok d' /\
  exists kv kv', d = JObj kv /\ d' = JObj kv' /\ map fst kv' = map fst kv /\
    forall k, k <> "config" -> lookup k kv' = lookup k kv.
Proof.
  intros d. assert (A : is_aivis d = Ok true) by reflexivity. split; [exact A|].
  destruct (add_styles_to_model d) as [d'|e] eqn:M; [|discriminate M].
  exists d'. split; [reflexivity|]. exact (packaged_merge_frame _ _ A M).
Defined.

Lemma add_speaker_styles_keys kv c' :
  add_speaker_styles (JObj kv) = Ok c' -> exists kv', c' = JObj kv' /\ map fst kv' = map fst kv.
Proof.
  unfold add_speaker_styles. cbn [py_contains obind].
  destruct (has_key "speakers" kv) eqn:K; [|intros H; injection H as <-; eauto].
  cbn [py_getitem]. destruct (lookup "speakers" kv) as [sp|]; [|discriminate]. cbn [obind].
  destruct (py_iter sp) as [l|]; [|discriminate]. cbn [obind].
  destruct (update_speakers l) as [l'|]; [|discriminate]. cbn [obind].
  destruct sp; intros H; injection H as <-; eauto.
  eexists; split; [reflexivity|]. rewrite set_keys, K. reflexivity.
Qed.

(** The merged configuration keeps its keys in their order, "styles" being
    appended at the end when it was absent. *)
Theorem merge_key_order d d' kv :
  select_config d = Ok (JObj kv) -> add_styles_to_model d = Ok d' ->
  exists kv', select_config d' = Ok (JObj kv') /\
    map fst kv' = if has_key "styles" kv then map fst kv else (map fst kv ++ ["styles"])%list.
Proof.
  intros S A. destruct (add_styles_inv _ _ A) as (c & c' & S0 & M & S1 & _).
  rewrite S in S0. injection S0 as <-.
  pose proof M as M0. rewrite merge_config_obj in M0.
  destruct (styles_base kv) as [st|]; [|discriminate].
  destruct (add_speaker_styles_keys _ _ M0) as (kv' & -> & K).
  exists kv'. split; [exact S1|]. rewrite K, set_keys. reflexivity.
Qed.

Lemma merge_key_order_witness :
  select_config ex_doc = Ok (JObj [("speakers", JArr [JObj [("id", JInt 1)]])]) /\
  exists d', add_styles_to_model ex_doc = Ok d' /\
  exists kv', select_config d' = Ok (JObj kv') /\
    map fst kv' = if has_key "styles" [("speakers", JArr [JObj [("id", JInt 1)]])]
                  then map fst [("speakers", JArr [JObj [("id", JInt 1)]])]
                  else (map fst [("speakers", JArr [JObj [("id", JInt 1)]])] ++ ["styles"])%list.
Proof.
  assert (S : select_config ex_doc = Ok (JObj [("speakers", JArr [JObj [("id", JInt 1)]])]))
    by reflexivity.
  split; [exact S|].
  destruct (add_styles_to_model ex_doc) as [d'|e] eqn:A; [|discriminate A].
  exists d'. split; [reflexivity|]. exact (merge_key_order _ _ _ S A).
Defined.


(** Processing a ".json" model whose object is not tagged "aivis" changes no
    path of the file system other than the output path; when it succeeds,
    the output holds the merged document. *)
Theorem process_json_writes_only_output input_file output_file s kv :
  ends_with ".json" input_file = true ->
  fs_lookup input_file s = Some (NFile (CJson (JObj kv))) ->
  is_aivis (JObj kv) = Ok false ->
  let '(r, s') := process_file input_file output_file s in
  (forall q, q <> output_file -> fs_lookup q s' = fs_lookup q s) /\
  (r = Ok tt -> exists d', add_styles_to_model (JObj kv) = Ok d' /\
                           fs_lookup output_file s' = Some (NFile (CJson d'))).
Proof.
  intros Hj Hl A. unfold process_file, load_model.
  rewrite (ends_with_json_not_aivis _ Hj), Hj.
  unfold fbind at 1 2, read_file, lift. rewrite Hl. cbn [json_decode].
  destruct (add_styles_to_model (JObj kv)) as [d'|e] eqn:M; cbn iota beta.
  - destruct (add_styles_inv _ _ M) as (_ & _ & _ & _ & _ & A'). rewrite A in A'.
    unfold save_model, fbind, lift. rewrite A'. cbn iota beta.
    destruct (write_file output_file (CJson d') s) as [r s'] eqn:W.
    destruct (write_file_state _ _ _ _ _ W) as [[-> ->]|[e [-> ->]]].
    + split.
      * intros q Hq. rewrite fs_lookup_put. apply String.eqb_neq in Hq. now rewrite Hq.
      * intros _. exists d'. split; [reflexivity|]. now rewrite fs_lookup_put, String.eqb_refl.
    + split; [reflexivity|]. discriminate.
  - split; [reflexivity|]. discriminate.
Qed.

Lemma process_json_writes_only_output_witness :
  ends_with ".json" "model.json" = true /\
  fs_lookup "model.json" (rt_fs ex_doc) = Some (NFile (CJson (JObj [("speakers", JArr [JObj [("id", JInt 1)]])]))) /\
  is_aivis (JObj [("speakers", JArr [JObj [("id", JInt 1)]])]) = Ok false /\
  let '(r, s') := process_file "model.json" "model_styled.json" (rt_fs ex_doc) in
  (forall q, q <> "model_styled.json" -> fs_lookup q s' = fs_lookup q (rt_fs ex_doc)) /\
  (r = Ok tt -> exists d', add_styles_to_model (JObj [("speakers", JArr [JObj [("id", JInt 1)]])]) = Ok d' /\
                           fs_lookup "model_styled.json" s' = Some (NFile (CJson d'))).
Proof.
  assert (H1 : ends_with ".json" "model.json" = true) by reflexivity.
  assert (H2 : fs_lookup "model.json" (rt_fs ex_doc) =
               Some (NFile (CJson (JObj [("speakers", JArr [JObj [("id", JInt 1)]])])))) by reflexivity.
  assert (H3 : is_aivis (JObj [("speakers", JArr [JObj [("id", JInt 1)]])]) = Ok false) by reflexivity.
  split; [exact H1|]. split; [exact H2|]. split; [exact H3|].
  exact (process_json_writes_only_output _ "model_styled.json" _ _ H1 H2 H3).
Defined.




(** A successful load of a ".aivis" archive returns the dict with "type",
    "config" and "temp_dir" = "temp_aivis_extract", and leaves the staging
    directory in place, with a [config.json] holding the returned
    configuration. *)
Theorem packaged_load_success model_path s d s' :
  ends_with ".aivis" model_path = true ->
  load_model model_path s = (Ok d, s') ->
  exists config,
    d = JObj [("type", JStr "aivis"); ("config", config); ("temp_dir", JStr temp_dir)] /\
    fs_lookup temp_dir s' = Some NDir /\
    fs_lookup staging_config s' = Some (NFile (CJson config)).
Proof.
  intros Ha. unfold load_model. rewrite Ha. unfold _load_aivis_model.
  unfold fbind at 1. rewrite mkdir_temp_dir.
  assert (Body : forall s1, fs_lookup temp_dir s1 = Some NDir ->
    try_except (load_aivis_body model_path) (fun e => _ <~ rmtree temp_dir ;; throw e) s1 =
      (Ok d, s') ->
    exists config,
      d = JObj [("type", JStr "aivis"); ("config", config); ("temp_dir", JStr temp_dir)] /\
      fs_lookup temp_dir s' = Some NDir /\
      fs_lookup staging_config s' = Some (NFile (CJson config))).
  { intros s1 Hd H. apply try_cleanup_ok, load_aivis_body_ok in H as (ms & config & _ & X & Hc & ->).
    exists config. split; [reflexivity|]. split; [|exact Hc].
    exact (proj1 (extractall_props temp_dir ms) _ _ _ _ X Hd). }
  destruct (fs_lookup temp_dir s) as [[|c]|] eqn:L.
  - exact (Body s L).
  - discriminate.
  - apply Body. rewrite fs_lookup_put, String.eqb_refl. reflexivity.
Qed.

Lemma packaged_load_success_witness :
  ends_with ".aivis" "a.aivis" = true /\
  exists d s', load_model "a.aivis" two_archives_fs = (Ok d, s') /\
  exists config,
    d = JObj [("type", JStr "aivis"); ("config", config); ("temp_dir", JStr temp_dir)] /\
    fs_lookup temp_dir s' = Some NDir /\
    fs_lookup staging_config s' = Some (NFile (CJson config)).
Proof.
  assert (Ha : ends_with ".aivis" "a.aivis" = true) by reflexivity.
  split; [exact Ha|].
  destruct (load_model "a.aivis" two_archives_fs) as [[d|e] s'] eqn:L; [|vm_compute in L; discriminate L].
  exists d, s'. split; [reflexivity|]. exact (packaged_load_success _ _ _ _ Ha L).
Defined.




